(** * Train coach detection: segmentation, keyframe selection, component
      classification

    A shallow embedding of the analysis pipeline of the repository:

    - [VideoProcessor._detect_coach_boundaries]  (utils/video_processor.py)
    - [FrameExtractor.extract_key_frames] and
      [FrameExtractor._calculate_similarity]     (utils/frame_extractor.py)
    - [ComponentDetector], [DoorDetector], [EngineDetector],
      [WagonDetector]                            (utils/component_detector.py)
    - [FolderManager._save_component_data]       (utils/folder_manager.py)

    Python integers are [Z].  Python floats are exact rationals [Q], without
    rounding: the floats of the code are quotients of frame counts by frame
    rates, contour areas, variances, similarity scores and products of pixel
    sizes with the literals 0.3 and 0.5, and they are only compared or
    truncated.  The time stamps of [extract_frames_at_timestamps] are the
    exception: their product with the frame rate is rounded before it is
    truncated, and they are binary64 numbers ([PyFloat]).  Raised exceptions are the [Raise] case of [result].  The
    OpenCV, NumPy and scikit-image routines the code calls are the fields of
    the classes [Imaging] and [Vision]; an array is a value where the code
    only reads it, and a reference into a store where the code draws on
    it. *)

From Stdlib Require Import ZArith QArith Qround List Lia Bool String Ascii.
From Stdlib Require Import DecimalString DecimalZ DecimalPos.
From Stdlib Require PrimFloat SpecFloat FloatOps.
From stdpp Require Import base list.
Import ListNotations.

Local Open Scope Z_scope.

(** ** Python semantics used by the code *)

Inductive exn : Type :=
| ZeroDivisionError
| ValueError
| OverflowError
| LibraryError.

Inductive result (A : Type) : Type :=
| Ok (a : A)
| Raise (e : exn).

Arguments Ok {A} a.
Arguments Raise {A} e.

Definition bind {A B : Type} (m : result A) (k : A -> result B) : result B :=
  match m with
  | Ok a => k a
  | Raise e => Raise e
  end.

(** [try: body  except Exception: handler] *)
Definition try_except {A : Type} (body : result A) (handler : exn -> result A)
  : result A :=
  match body with
  | Ok a => Ok a
  | Raise e => handler e
  end.

Declare Scope py_scope.
Delimit Scope py_scope with py.
Notation "x <- m ;; k" := (bind m (fun x => k))
  (at level 100, m at next level, right associativity) : py_scope.
Local Open Scope py_scope.

Definition Qltb (a b : Q) : bool :=
  Qnum a * Z.pos (Qden b) <? Qnum b * Z.pos (Qden a).

(** [a / b] on two ints: true division. *)
Definition py_truediv (a b : Z) : result Q :=
  if b =? 0 then Raise ZeroDivisionError
  else Ok (inject_Z a / inject_Z b)%Q.

(** [a // b] on two ints: floor division. *)
Definition py_floordiv (a b : Z) : result Z :=
  if b =? 0 then Raise ZeroDivisionError else Ok (a / b).

(** [int(x)] on a float: truncation toward zero. *)
Definition py_int (x : Q) : Z := Z.quot (Qnum x) (Z.pos (Qden x)).

(** [range(n)] *)
Definition py_range (n : Z) : list Z := map Z.of_nat (seq 0 (Z.to_nat n)).

(** [max(a, b)] of Python keeps its first argument unless the second is
    strictly greater. *)
Definition py_max (a b : Q) : Q := if Qltb a b then b else a.

(** The sum of a list of integers. *)
Definition sumZ (l : list Z) : Z := fold_right Z.add 0 l.

(** ** CoachSegmenter: utils/video_processor.py *)

Module VideoProcessor.

Inductive coach_type : Type := engine | wagon.

(** One entry of [boundaries]: [(start_frame, end_frame, coach_type)]. *)
Definition boundary : Type := (Z * Z * coach_type)%type.

Definition start_frame (b : boundary) : Z := fst (fst b).
Definition end_frame (b : boundary) : Z := snd (fst b).
Definition tag (b : boundary) : coach_type := snd b.

(** [num_coaches = min(12, max(6, int(duration / 15)))] *)
Definition num_coaches_of (duration : Q) : Z :=
  Z.min 12 (Z.max 6 (py_int (duration / 15)%Q)).

(** The body of the [for i in range(num_coaches)] loop. *)
Definition loop_body (total_frames segment_length : Z)
    (boundaries : list boundary) (i : Z) : list boundary :=
  let start_frame := i * segment_length in
  let end_frame := Z.min ((i + 1) * segment_length) total_frames in
  let coach_type := if i =? 0 then engine else wagon in
  boundaries ++ [(start_frame, end_frame, coach_type)].

(** The tuple appended at iteration [i]. *)
Definition segment (total_frames segment_length i : Z) : boundary :=
  (i * segment_length,
   Z.min ((i + 1) * segment_length) total_frames,
   if i =? 0 then engine else wagon).

(** [_detect_coach_boundaries(cap, fps)], with [total_frames] the value of
    [int(cap.get(cv2.CAP_PROP_FRAME_COUNT))]. *)
Definition _detect_coach_boundaries (total_frames fps : Z)
  : result (list boundary) :=
  duration <- py_truediv total_frames fps ;;
  let num_coaches := num_coaches_of duration in
  segment_length <- py_floordiv total_frames num_coaches ;;
  Ok (fold_left (loop_body total_frames segment_length)
                (py_range num_coaches) []).

(** The segment count and the partition property as the specification words
    them. *)

(** Round to the nearest integer. *)
Definition spec_round (x : Q) : Z := Qfloor (x + (1 # 2))%Q.

Definition spec_num_coaches (total_frame_count frame_rate : Z) : Z :=
  Z.min 12 (Z.max 6
    (spec_round (inject_Z total_frame_count / inject_Z frame_rate / 15)%Q)).

Definition contiguous (l : list boundary) : Prop :=
  forall (i : nat) (a b : boundary),
    l !! i = Some a -> l !! S i = Some b -> end_frame a = start_frame b.

Definition starts_at (l : list boundary) (s : Z) : Prop :=
  exists b, head l = Some b /\ start_frame b = s.

Definition ends_at (l : list boundary) (e : Z) : Prop :=
  exists b, last l = Some b /\ end_frame b = e.

Definition engine_first (l : list boundary) : Prop :=
  forall (i : nat) (b : boundary),
    l !! i = Some b -> tag b = match i with O => engine | S _ => wagon end.

Definition exact_partition (total_frame_count : Z) (l : list boundary) : Prop :=
  contiguous l /\ starts_at l 0 /\ ends_at l total_frame_count /\
  engine_first l.

End VideoProcessor.

(** ** KeyframeSelector: utils/frame_extractor.py *)

Module FrameExtractor.

(** The OpenCV and scikit-image routines the extractor calls. *)
Class Imaging : Type := {
  (** a colour frame, as [cap.read()] decodes it *)
  frame : Type;
  (** a single-channel intensity image *)
  gray : Type;
  (** [cv2.cvtColor(frame, cv2.COLOR_BGR2GRAY)] *)
  cvtColor : frame -> gray;
  (** [img.shape], as (rows, columns) *)
  shape : gray -> Z * Z;
  (** [cv2.resize(img, (width, height))] *)
  resize : gray -> Z * Z -> result gray;
  (** [structural_similarity(img1, img2, data_range=255)] *)
  ssim : gray -> gray -> result Q
}.

(** What [cv2.VideoCapture(video_path)] gives for one file: whether it
    opens, its metadata, and the frames that successive [cap.read()] calls
    return before [ret] is false. *)
Record Video {I : Imaging} : Type := {
  isOpened : bool;
  CAP_PROP_FRAME_COUNT : Z;
  stream : list frame
}.

Section Extractor.
Context {I : Imaging}.

Definition shape_eqb (a b : Z * Z) : bool :=
  (fst a =? fst b) && (snd a =? snd b).

(** The body of the [try] block of [_calculate_similarity]. *)
Definition similarity_body (frame1 frame2 : gray) : result Q :=
  frame2 <- (if negb (shape_eqb (shape frame1) (shape frame2))
             then resize frame2 (snd (shape frame1), fst (shape frame1))
             else Ok frame2) ;;
  similarity <- ssim frame1 frame2 ;;
  Ok (py_max 0 similarity).

Definition _calculate_similarity (frame1 frame2 : gray) : result Q :=
  try_except (similarity_body frame1 frame2) (fun _ => Ok 0%Q).

(** The score [_calculate_similarity] returns. *)
Definition score (a b : gray) : Q :=
  match similarity_body a b with
  | Ok s => s
  | Raise _ => 0%Q
  end.

(** The [while True] loop of [extract_key_frames]: one iteration per frame
    that [cap.read()] returns; the loop ends when the stream is exhausted
    or at the [break] taken once [len(frames) >= target_frames]. *)
Fixpoint scan (sample_interval : Z) (similarity_threshold : Q)
    (target_frames : Z) (rest : list frame)
    (frame_count : Z) (reference_frame : option gray) (frames : list frame)
  : result (list frame) :=
  match rest with
  | [] => Ok frames
  | frame :: rest =>
    if frame_count mod sample_interval =? 0 then
      let gray := cvtColor frame in
      match reference_frame with
      | None =>
        scan sample_interval similarity_threshold target_frames rest
             (frame_count + 1) (Some gray) (frames ++ [frame])
      | Some reference =>
        similarity <- _calculate_similarity reference gray ;;
        if Qltb similarity similarity_threshold then
          let frames := frames ++ [frame] in
          if Z.of_nat (length frames) >=? target_frames then Ok frames
          else scan sample_interval similarity_threshold target_frames rest
                    (frame_count + 1) (Some gray) frames
        else
          scan sample_interval similarity_threshold target_frames rest
               (frame_count + 1) reference_frame frames
      end
    else
      scan sample_interval similarity_threshold target_frames rest
           (frame_count + 1) reference_frame frames
  end.

Definition extract_key_frames (video : Video)
    (similarity_threshold : Q) (target_frames : Z) : result (list frame) :=
  if negb (isOpened video) then Raise ValueError else
  let total_frames := CAP_PROP_FRAME_COUNT video in
  q <- py_floordiv total_frames (target_frames * 3) ;;
  let sample_interval := Z.max 1 q in
  frames <- scan sample_interval similarity_threshold target_frames
                 (stream video) 0 None [] ;;
  if Z.of_nat (length frames) =? 0 then
    match stream video with
    | frame :: _ => Ok (frames ++ [frame])
    | [] => Ok frames
    end
  else Ok frames.

(** The selection rule as the specification words it: only the frames at
    multiples of the sampling interval are candidates; the first candidate
    is selected and becomes the reference; a later candidate is selected
    when its similarity to the current reference is below the threshold,
    and then becomes the reference; selection stops once [target_count]
    keyframes are collected or the candidates are exhausted. *)
Fixpoint sampled (sample_interval : Z) (index : Z) (l : list frame)
  : list frame :=
  match l with
  | [] => []
  | f :: l =>
    if index mod sample_interval =? 0
    then f :: sampled sample_interval (index + 1) l
    else sampled sample_interval (index + 1) l
  end.

Definition below (threshold : Q) (reference candidate : gray) : bool :=
  match _calculate_similarity reference candidate with
  | Ok s => Qltb s threshold
  | Raise _ => false
  end.

Fixpoint spec_select (threshold : Q) (target_count : Z)
    (candidates : list frame) (reference : option gray)
    (selected : list frame) : list frame :=
  if Z.of_nat (length selected) >=? target_count then selected else
  match candidates with
  | [] => selected
  | c :: candidates =>
    match reference with
    | None =>
      spec_select threshold target_count candidates
                  (Some (cvtColor c)) (selected ++ [c])
    | Some r =>
      if below threshold r (cvtColor c)
      then spec_select threshold target_count candidates
                       (Some (cvtColor c)) (selected ++ [c])
      else spec_select threshold target_count candidates reference selected
    end
  end.

Definition spec_keyframes (video : Video) (threshold : Q) (target_count : Z)
  : list frame :=
  let sample_interval :=
    Z.max 1 (CAP_PROP_FRAME_COUNT video / (target_count * 3)) in
  spec_select threshold target_count
              (sampled sample_interval 0 (stream video)) None [].

End Extractor.

(** Frames of uniform intensity, [rows] by [cols] pixels, every pixel (and
    every channel) at [level].  On these the library routines have closed
    forms: the grey conversion keeps the level, resizing keeps the level and
    changes the dimensions, and the structural similarity of two uniform
    images of levels a and b is (2ab + C1) / (a^2 + b^2 + C1) with
    C1 = (0.01 * 255)^2; scikit-image raises ValueError when the images
    differ in shape or a side is shorter than its 7-pixel window. *)
Record flat : Type := { rows : Z; cols : Z; level : Z }.

Definition flat_C1 : Q := 2601 # 400.

Definition flat_resize (a : flat) (dsize : Z * Z) : result flat :=
  if (fst dsize <=? 0) || (snd dsize <=? 0) || (rows a <=? 0) || (cols a <=? 0)
  then Raise LibraryError
  else Ok {| rows := snd dsize; cols := fst dsize; level := level a |}.

Definition flat_ssim (a b : flat) : result Q :=
  if negb ((rows a =? rows b) && (cols a =? cols b)) then Raise ValueError
  else if (rows a <? 7) || (cols a <? 7) then Raise ValueError
  else Ok ((inject_Z (2 * level a * level b) + flat_C1)
           / (inject_Z (level a * level a + level b * level b) + flat_C1))%Q.

#[export] Instance flat_imaging : Imaging := {|
  frame := flat;
  gray := flat;
  cvtColor := fun f => f;
  shape := fun g => (rows g, cols g);
  resize := flat_resize;
  ssim := flat_ssim
|}.

(** Uniform frames: 480 rows by 640 columns at a given level. *)
Definition uniform (v : Z) : flat := {| rows := 480; cols := 640; level := v |}.

Definition clip (n : Z) (l : list flat) : Video :=
  {| isOpened := true; CAP_PROP_FRAME_COUNT := n; stream := l |}.

(** A frame narrower than the 7-pixel window of the structural similarity. *)
Definition tiny : flat := {| rows := 4; cols := 4; level := 100 |}.

End FrameExtractor.

(** ** Frame extraction by position: utils/frame_extractor.py *)

Module PyFloat.

(** A [float] of Python: a binary64 number. *)
Definition float : Set := PrimFloat.float.

(** The conversion of an int operand to a float: the nearest double, ties
    to even; OverflowError when the int is too large for a double. *)
Definition float_of_int (n : Z) : result float :=
  let x :=
    FloatOps.SF2Prim
      (SpecFloat.binary_normalize FloatOps.prec FloatOps.emax n 0 false) in
  if PrimFloat.is_infinity x then Raise OverflowError else Ok x.

(** [x * n] for a float [x] and an int [n]: the product of two doubles,
    rounded to the nearest double. *)
Definition mul_int (x : float) (n : Z) : result float :=
  y <- float_of_int n ;;
  Ok (PrimFloat.mul x y).

(** [int(x)] on a float: truncation toward zero; ValueError on a nan,
    OverflowError on an infinity. *)
Definition int_of_float (x : float) : result Z :=
  match FloatOps.Prim2SF x with
  | SpecFloat.S754_zero _ => Ok 0
  | SpecFloat.S754_infinity _ => Raise OverflowError
  | SpecFloat.S754_nan => Raise ValueError
  | SpecFloat.S754_finite s m e =>
    let v := if e <? 0 then Z.pos m / 2 ^ (- e) else Z.pos m * 2 ^ e in
    Ok (if s then - v else v)
  end.

Import PrimFloat.

(** The doubles written [0.0], [0.5], [0.7], [1.5] and [5.0], and a nan. *)
Definition zero : float := 0x0p+0%float.
Definition half : float := 0x1p-1%float.
Definition seven_tenths : float := 0x1.6666666666666p-1%float.
Definition three_halves : float := 0x1.8p+0%float.
Definition five : float := 0x1.4p+2%float.
Definition not_a_number : float := PrimFloat.nan.

End PyFloat.

Module FrameSampling.
Import FrameExtractor.

(** A capture that is also read by position: its frame rate, and what
    [cap.set(cv2.CAP_PROP_POS_FRAMES, n)] followed by [cap.read()] returns
    ([None] when [ret] is false). *)
Record Capture {I : Imaging} : Type := {
  video : Video;
  CAP_PROP_FPS : Z;
  read_at : Z -> option frame
}.

Section Sampling.
Context {I : Imaging}.

(** The body of the two loops: seek, read, append if a frame came back. *)
Definition read_step (cap : Capture) (frames : list frame) (frame_number : Z)
  : list frame :=
  match read_at cap frame_number with
  | Some frame => frames ++ [frame]
  | None => frames
  end.

(** The body of the loop over the time stamps. *)
Definition timestamp_step (cap : Capture) (fps : Z)
    (acc : result (list frame)) (timestamp : PyFloat.float)
  : result (list frame) :=
  frames <- acc ;;
  product <- PyFloat.mul_int timestamp fps ;;
  frame_number <- PyFloat.int_of_float product ;;
  Ok (read_step cap frames frame_number).

(** [FrameExtractor.extract_frames_at_timestamps] *)
Definition extract_frames_at_timestamps (cap : Capture)
    (timestamps : list PyFloat.float) : result (list frame) :=
  if negb (isOpened (video cap)) then Raise ValueError else
  let fps := CAP_PROP_FPS cap in
  fold_left (timestamp_step cap fps) timestamps (Ok []).

(** [int(timestamp * fps)] *)
Definition frame_number_at (fps : Z) (timestamp : PyFloat.float)
  : result Z :=
  product <- PyFloat.mul_int timestamp fps ;;
  PyFloat.int_of_float product.

(** The positions of all the time stamps, or what the first one that
    cannot be converted raises. *)
Fixpoint positions (fps : Z) (timestamps : list PyFloat.float)
  : result (list Z) :=
  match timestamps with
  | [] => Ok []
  | timestamp :: rest =>
    p <- frame_number_at fps timestamp ;;
    ps <- positions fps rest ;;
    Ok (p :: ps)
  end.

(** [FrameExtractor.extract_uniform_frames] *)
Definition extract_uniform_frames (cap : Capture) (num_frames : Z)
  : result (list frame) :=
  if negb (isOpened (video cap)) then Raise ValueError else
  let total_frames := CAP_PROP_FRAME_COUNT (video cap) in
  frame_interval <- py_floordiv total_frames num_frames ;;
  Ok (fold_left
        (fun frames i =>
           let frame_number := i * frame_interval in
           read_step cap frames frame_number)
        (py_range num_frames) []).

(** The positions [extract_uniform_frames] asks for. *)
Definition uniform_positions (total_frames num_frames : Z) : list Z :=
  map (fun i => i * (total_frames / num_frames)) (py_range num_frames).

(** The capture reads frame [n] of its stream at position [n]. *)
Definition exact_seek (cap : Capture) : Prop :=
  forall n : nat, read_at cap (Z.of_nat n) = stream (video cap) !! n.

End Sampling.

(** A capture on uniform frames that reads frame [n] at position [n] and
    nothing at a negative position. *)
Definition seekable (fps : Z) (l : list flat) : Capture :=
  {| video := clip (Z.of_nat (length l)) l;
     CAP_PROP_FPS := fps;
     read_at := fun n => if n <? 0 then None else l !! Z.to_nat n |}.

End FrameSampling.

(** ** ComponentClassifier: utils/component_detector.py *)

Module ComponentDetector.

Definition bbox : Type := (Z * Z * Z * Z)%type.
Definition color : Type := (Z * Z * Z)%type.

(** The OpenCV and NumPy routines the detectors and the annotator call.
    The drawing routines of OpenCV write into the array they are given;
    [rectangle] and [putText] give the content of that array after the
    call. *)
Class Vision : Type := {
  (** an [np.ndarray] holding an image *)
  image : Type;
  (** a contour, as [cv2.findContours] returns it *)
  contour : Type;
  (** [cv2.cvtColor(img, cv2.COLOR_BGR2GRAY)] *)
  cvtColor : image -> image;
  (** [cv2.Canny(img, low, high)] *)
  Canny : image -> Z -> Z -> image;
  (** [cv2.findContours(edges, cv2.RETR_EXTERNAL, cv2.CHAIN_APPROX_SIMPLE)] *)
  findContours : image -> list contour;
  (** [cv2.boundingRect(contour)], as (x, y, w, h) *)
  boundingRect : contour -> bbox;
  (** [cv2.contourArea(contour)] *)
  contourArea : contour -> Q;
  (** [img[r0:r1, c0:c1]] *)
  slice : image -> Z * Z -> Z * Z -> image;
  (** [img.size] *)
  size : image -> Z;
  (** [len(img.shape)] *)
  ndim : image -> Z;
  (** [np.var(img)] *)
  var : image -> Q;
  (** [cv2.rectangle(img, pt1, pt2, color, thickness)] *)
  rectangle : image -> Z * Z -> Z * Z -> color -> Z -> image;
  (** [cv2.putText(img, text, org, cv2.FONT_HERSHEY_SIMPLEX, scale, color,
      thickness)] *)
  putText : image -> string -> Z * Z -> Q -> color -> Z -> image
}.

Inductive door_status : Type := status_open | status_closed.

Definition door_status_eqb (a b : door_status) : bool :=
  match a, b with
  | status_open, status_open | status_closed, status_closed => true
  | _, _ => false
  end.

Definition status_text (s : door_status) : string :=
  match s with
  | status_open => "open"%string
  | status_closed => "closed"%string
  end.

Section Detectors.
Context {V : Vision}.

(** One entry of [doors['door_boxes']]. *)
Record door_info : Type := {
  door_bbox : bbox;
  status : door_status;
  area : Q
}.

(** The dictionary [detect_doors] returns. *)
Record doors_dict : Type := {
  open : Z;
  closed : Z;
  door_boxes : list door_info
}.

(** [DoorDetector._classify_door_status] *)
Definition _classify_door_status (door_roi : image) : door_status :=
  if size door_roi =? 0 then status_closed else
  let gray := if ndim door_roi =? 3 then cvtColor door_roi else door_roi in
  let variance := var gray in
  let threshold := 1000%Q in
  if Qltb threshold variance then status_open else status_closed.

(** The body of the [for contour in contours] loop of [detect_doors]. *)
Definition door_step (frame : image) (doors : doors_dict) (c : contour)
  : doors_dict :=
  let '(x, y, w, h) := boundingRect c in
  let area := contourArea c in
  if Qltb 1000 area && Qltb area 10000
     && Qltb (inject_Z h * (3 # 10)) (inject_Z w) && (w <? h * 3) then
    let door_status :=
      _classify_door_status (slice frame (y, y + h) (x, x + w)) in
    let door_info :=
      {| door_bbox := (x, y, w, h); status := door_status; area := area |} in
    let boxes := door_boxes doors ++ [door_info] in
    if door_status_eqb door_status status_open
    then {| open := open doors + 1; closed := closed doors;
            door_boxes := boxes |}
    else {| open := open doors; closed := closed doors + 1;
            door_boxes := boxes |}
  else doors.

(** [DoorDetector.detect_doors] *)
Definition detect_doors (frame : image) : doors_dict :=
  let gray := cvtColor frame in
  let edges := Canny gray 50 150 in
  let contours := findContours edges in
  fold_left (door_step frame) contours
            {| open := 0; closed := 0; door_boxes := [] |}.

(** The body of the [for contour in contours] loop of [detect_engines]. *)
Definition engine_step (engines : list bbox) (c : contour) : list bbox :=
  let '(x, y, w, h) := boundingRect c in
  let area := contourArea c in
  if Qltb 15000 area && Qltb (inject_Z h * (1 # 2)) (inject_Z w)
  then engines ++ [(x, y, w, h)]
  else engines.

(** [EngineDetector.detect_engines] *)
Definition detect_engines (frame : image) : list bbox :=
  let gray := cvtColor frame in
  let edges := Canny gray 50 150 in
  let contours := findContours edges in
  fold_left engine_step contours [].

(** The body of the [for contour in contours] loop of [detect_wagons]. *)
Definition wagon_step (wagons : list bbox) (c : contour) : list bbox :=
  let '(x, y, w, h) := boundingRect c in
  let area := contourArea c in
  if Qltb 5000 area && Qltb area 15000
     && Qltb (inject_Z h * (3 # 10)) (inject_Z w)
  then wagons ++ [(x, y, w, h)]
  else wagons.

(** [WagonDetector.detect_wagons] *)
Definition detect_wagons (frame : image) : list bbox :=
  let gray := cvtColor frame in
  let edges := Canny gray 50 150 in
  let contours := findContours edges in
  fold_left wagon_step contours [].

(** Arrays are objects: a frame is a reference into a store of arrays, and
    the drawing routines change the array behind the reference they are
    given. *)
Definition loc : Type := nat.
Definition store : Type := list image.

Definition deref (s : store) (l : loc) : result image :=
  match s !! l with
  | Some img => Ok img
  | None => Raise LibraryError
  end.

(** [img.copy()]: a new array with the same content. *)
Definition copy (s : store) (l : loc) : result (store * loc) :=
  img <- deref s l ;;
  Ok (s ++ [img], length s).

(** A drawing call on the array behind [l]. *)
Definition draw (f : image -> image) (l : loc) (s : store) : store :=
  alter f l s.

Definition draw_door (annotated : loc) (s : store) (door : door_info)
  : store :=
  let '(x, y, w, h) := door_bbox door in
  let color := if door_status_eqb (status door) status_open
               then (0, 255, 0) else (0, 0, 255) in
  let s := draw (fun img => rectangle img (x, y) (x + w, y + h) color 2)
                annotated s in
  draw (fun img => putText img ("Door: " ++ status_text (status door))%string
                           (x, y - 10) (1 # 2) color 1)
       annotated s.

Definition draw_label (text : string) (color : color) (annotated : loc)
    (s : store) (b : bbox) : store :=
  let '(x, y, w, h) := b in
  let s := draw (fun img => rectangle img (x, y) (x + w, y + h) color 2)
                annotated s in
  draw (fun img => putText img text (x, y - 10) (1 # 2) color 1)
       annotated s.

(** [ComponentDetector._annotate_frame] *)
Definition _annotate_frame (s : store) (frame : loc) (doors : doors_dict)
    (engines wagons : list bbox) : result (store * loc) :=
  copied <- copy s frame ;;
  let '(s, annotated) := copied in
  let s := fold_left (draw_door annotated) (door_boxes doors) s in
  let s := fold_left (draw_label "Engine"%string (255, 0, 0) annotated)
                     engines s in
  let s := fold_left (draw_label "Wagon"%string (0, 255, 255) annotated)
                     wagons s in
  Ok (s, annotated).

(** One entry of [components['annotations']]. *)
Record annotation : Type := {
  frame_index : Z;
  annotated_frame : loc;
  doors : doors_dict;
  frame_engines : list bbox;
  frame_wagons : list bbox
}.

(** The dictionary [detect_components] returns. *)
Record components : Type := {
  doors_open : Z;
  doors_closed : Z;
  engines : list bbox;
  wagons : list bbox;
  annotations : list annotation
}.

(** The [for i, frame in enumerate(frames)] loop of [detect_components]. *)
Fixpoint detect_loop (s : store) (i : Z) (frames : list loc)
    (c : components) : result (store * components) :=
  match frames with
  | [] => Ok (s, c)
  | frame :: frames =>
    img <- deref s frame ;;
    let doors := detect_doors img in
    let engines_found := detect_engines img in
    let wagons_found := detect_wagons img in
    drawn <- _annotate_frame s frame doors engines_found wagons_found ;;
    let '(s, annotated) := drawn in
    detect_loop s (i + 1) frames
      {| doors_open := doors_open c + open doors;
         doors_closed := doors_closed c + closed doors;
         engines := engines c ++ engines_found;
         wagons := wagons c ++ wagons_found;
         annotations := annotations c ++
           [{| frame_index := i; annotated_frame := annotated;
               doors := doors; frame_engines := engines_found;
               frame_wagons := wagons_found |}] |}
  end.

(** [ComponentDetector.detect_components] *)
Definition detect_components (s : store) (frames : list loc)
  : result (store * components) :=
  detect_loop s 0 frames
    {| doors_open := 0; doors_closed := 0; engines := []; wagons := [];
       annotations := [] |}.

(** The ['total_components'] entry that
    [FolderManager._save_component_data] derives from the dictionary. *)
Record totals : Type := {
  total_doors : Z;
  total_engines : Z;
  total_wagons : Z
}.

Definition total_components (c : components) : totals :=
  {| total_doors := doors_open c + doors_closed c;
     total_engines := Z.of_nat (length (engines c));
     total_wagons := Z.of_nat (length (wagons c)) |}.

(** The door test as the specification words it: on the area of the
    bounding box. *)
Definition spec_door_candidate (c : contour) : bool :=
  let '(x, y, w, h) := boundingRect c in
  (1000 <? w * h) && (w * h <? 10000)
  && Qltb (inject_Z h * (3 # 10)) (inject_Z w) && (w <? h * 3).

(** Notions used to state the properties of the detectors. *)

(** The test [1000 < area < 10000 and w > h * 0.3 and w < h * 3]. *)
Definition door_like (c : contour) : bool :=
  let '(x, y, w, h) := boundingRect c in
  let area := contourArea c in
  Qltb 1000 area && Qltb area 10000
  && Qltb (inject_Z h * (3 # 10)) (inject_Z w) && (w <? h * 3).

(** The test [area > 15000 and w > h * 0.5]. *)
Definition engine_like (c : contour) : bool :=
  let '(x, y, w, h) := boundingRect c in
  let area := contourArea c in
  Qltb 15000 area && Qltb (inject_Z h * (1 # 2)) (inject_Z w).

(** The test [5000 < area < 15000 and w > h * 0.3]. *)
Definition wagon_like (c : contour) : bool :=
  let '(x, y, w, h) := boundingRect c in
  let area := contourArea c in
  Qltb 5000 area && Qltb area 15000
  && Qltb (inject_Z h * (3 # 10)) (inject_Z w).

(** The entry recorded for a door-like contour of [frame]. *)
Definition door_entry (frame : image) (c : contour) : door_info :=
  let '(x, y, w, h) := boundingRect c in
  {| door_bbox := (x, y, w, h);
     status := _classify_door_status (slice frame (y, y + h) (x, x + w));
     area := contourArea c |}.

Definition is_open (d : door_info) : bool :=
  door_status_eqb (status d) status_open.

Definition count (p : door_info -> bool) (l : list door_info) : Z :=
  Z.of_nat (length (List.filter p l)).

(** The edge contours of a frame, as each detector computes them. *)
Definition contours_of (frame : image) : list contour :=
  findContours (Canny (cvtColor frame) 50 150).

(** *** The store: drawing touches only the array it is given *)

(** [g] changes at most the array behind [a]. *)
Definition touches_only (a : loc) (g : store -> store) : Prop :=
  forall s : store,
    length (g s) = length s /\
    forall l : loc, l <> a -> g s !! l = s !! l.

(** What the annotator draws, as a function of the content of the copy. *)
Definition paint_door (img : image) (door : door_info) : image :=
  let '(x, y, w, h) := door_bbox door in
  let color := if door_status_eqb (status door) status_open
               then (0, 255, 0) else (0, 0, 255) in
  putText (rectangle img (x, y) (x + w, y + h) color 2)
          ("Door: " ++ status_text (status door))%string
          (x, y - 10) (1 # 2) color 1.

Definition paint_label (text : string) (color : color) (img : image)
    (b : bbox) : image :=
  let '(x, y, w, h) := b in
  putText (rectangle img (x, y) (x + w, y + h) color 2)
          text (x, y - 10) (1 # 2) color 1.

Definition painted (img : image) (doors : doors_dict)
    (engines wagons : list bbox) : image :=
  fold_left (paint_label "Wagon"%string (0, 255, 255)) wagons
    (fold_left (paint_label "Engine"%string (255, 0, 0)) engines
       (fold_left paint_door (door_boxes doors) img)).

(** The annotated copy of a frame, with the detections of the frame. *)
Definition annotated_copy (img : image) : image :=
  painted img (detect_doors img) (detect_engines img) (detect_wagons img).

End Detectors.

(** Synthetic frames, given by what the library routines report on them:
    the dimensions, the external contours of the edge map as polygons, the
    intensity variance of a non-empty region, and the shapes drawn so far. *)
Record scene : Type := {
  scene_rows : Z;
  scene_cols : Z;
  scene_channels : Z;
  outlines : list (list (Z * Z));
  spread : Q;
  overlay : list (string * (Z * Z))
}.

(** The bounding rectangle of a polygon with integer vertices. *)
Definition polygon_boundingRect (p : list (Z * Z)) : bbox :=
  match p with
  | [] => (0, 0, 0, 0)
  | (x0, y0) :: r =>
    let xmin := fold_left Z.min (map fst r) x0 in
    let xmax := fold_left Z.max (map fst r) x0 in
    let ymin := fold_left Z.min (map snd r) y0 in
    let ymax := fold_left Z.max (map snd r) y0 in
    (xmin, ymin, xmax - xmin + 1, ymax - ymin + 1)
  end.

(** Twice the signed area of a polygon, by the shoelace formula. *)
Fixpoint shoelace (first : Z * Z) (p : list (Z * Z)) : Z :=
  match p with
  | [] => 0
  | a :: r =>
    let b := match r with [] => first | b :: _ => b end in
    fst a * snd b - fst b * snd a + shoelace first r
  end.

Definition polygon_contourArea (p : list (Z * Z)) : Q :=
  match p with
  | [] => 0
  | first :: _ => Z.abs (shoelace first p) # 2
  end.

(** The number of indices that [a:b] selects in a dimension of length [n],
    for bounds that are not negative. *)
Definition span (n : Z) (r : Z * Z) : Z :=
  Z.max 0 (Z.min (snd r) n - Z.min (fst r) n).

Definition scene_slice (img : scene) (r c : Z * Z) : scene :=
  {| scene_rows := span (scene_rows img) r;
     scene_cols := span (scene_cols img) c;
     scene_channels := scene_channels img;
     outlines := outlines img; spread := spread img;
     overlay := overlay img |}.

Definition scene_gray (img : scene) : scene :=
  {| scene_rows := scene_rows img; scene_cols := scene_cols img;
     scene_channels := 1;
     outlines := outlines img; spread := spread img;
     overlay := overlay img |}.

Definition scene_draw (what : string) (at_ : Z * Z) (img : scene) : scene :=
  {| scene_rows := scene_rows img; scene_cols := scene_cols img;
     scene_channels := scene_channels img;
     outlines := outlines img; spread := spread img;
     overlay := overlay img ++ [(what, at_)] |}.

#[export] Instance scene_vision : Vision := {|
  image := scene;
  contour := list (Z * Z);
  cvtColor := scene_gray;
  Canny := fun img _ _ => img;
  findContours := outlines;
  boundingRect := polygon_boundingRect;
  contourArea := polygon_contourArea;
  slice := scene_slice;
  size := fun img => scene_rows img * scene_cols img * scene_channels img;
  ndim := fun img => if scene_channels img =? 1 then 2 else 3;
  var := spread;
  rectangle := fun img pt1 _ _ _ => scene_draw "rectangle" pt1 img;
  putText := fun img text org _ _ _ => scene_draw text org img
|}.

(** A colour frame of 480 rows by 640 columns with the given edge contours
    and the given intensity variance in every non-empty region. *)
Definition synthetic (contours : list (list (Z * Z))) (variance : Q) : scene :=
  {| scene_rows := 480; scene_cols := 640; scene_channels := 3;
     outlines := contours; spread := variance; overlay := [] |}.

(** A right triangle with legs of 39 pixels: its bounding box is 40 by 40,
    of area 1600, and it encloses an area of 760.5. *)
Definition triangle : list (Z * Z) := [(0, 0); (39, 0); (0, 39)].

(** A rectangle 60 wide and 100 high: it encloses an area of 6000. *)
Definition door_outline : list (Z * Z) :=
  [(10, 10); (70, 10); (70, 110); (10, 110)].

(** A slanted band: it encloses an area of 6000 and its bounding box is 231
    by 201, of area 46431. *)
Definition band : list (Z * Z) := [(0, 0); (30, 0); (230, 200); (200, 200)].

(** Two frames in a store; the keyframe list names the first one twice. *)
Definition two_frames : list scene :=
  [synthetic [door_outline] 1500; synthetic [triangle] 1500].

Definition keyframes : list nat := [0; 1; 0]%nat.

End ComponentDetector.

(** ** The detectors of utils/video_processor.py

    [VideoProcessor.__init__] builds an [EngineDetector] and a
    [WagonDetector] of its own file; they differ from the detectors of
    utils/component_detector.py in their area thresholds. *)

Module VideoProcessorDetectors.
Import ComponentDetector.

Section Detectors.
Context {V : Vision}.

(** The body of the [for contour in contours] loop of [detect_engines]. *)
Definition engine_step (engines : list bbox) (c : contour) : list bbox :=
  let '(x, y, w, h) := boundingRect c in
  let area := contourArea c in
  if Qltb 10000 area && Qltb (inject_Z h * (1 # 2)) (inject_Z w)
  then engines ++ [(x, y, w, h)]
  else engines.

(** [EngineDetector.detect_engines] of video_processor.py *)
Definition detect_engines (frame : image) : list bbox :=
  let gray := cvtColor frame in
  let edges := Canny gray 50 150 in
  let contours := findContours edges in
  fold_left engine_step contours [].

(** The body of the [for contour in contours] loop of [detect_wagons]. *)
Definition wagon_step (wagons : list bbox) (c : contour) : list bbox :=
  let '(x, y, w, h) := boundingRect c in
  let area := contourArea c in
  if Qltb 5000 area && Qltb area 10000
     && Qltb (inject_Z h * (3 # 10)) (inject_Z w)
  then wagons ++ [(x, y, w, h)]
  else wagons.

(** [WagonDetector.detect_wagons] of video_processor.py *)
Definition detect_wagons (frame : image) : list bbox :=
  let gray := cvtColor frame in
  let edges := Canny gray 50 150 in
  let contours := findContours edges in
  fold_left wagon_step contours [].

(** The width and the height of the bounding box of a contour. *)
Definition width (c : contour) : Z := snd (fst (boundingRect c)).
Definition height (c : contour) : Z := snd (boundingRect c).

(** The test [area > 10000 and w > h * 0.5]. *)
Definition engine_like (c : contour) : bool :=
  let '(x, y, w, h) := boundingRect c in
  let area := contourArea c in
  Qltb 10000 area && Qltb (inject_Z h * (1 # 2)) (inject_Z w).

(** The test [5000 < area < 10000 and w > h * 0.3]. *)
Definition wagon_like (c : contour) : bool :=
  let '(x, y, w, h) := boundingRect c in
  let area := contourArea c in
  Qltb 5000 area && Qltb area 10000
  && Qltb (inject_Z h * (3 # 10)) (inject_Z w).

End Detectors.

(** A rectangle 150 wide and 80 high: it encloses an area of 12000. *)
Definition coach_outline : list (Z * Z) :=
  [(0, 0); (150, 0); (150, 80); (0, 80)].

End VideoProcessorDetectors.

(** ** Python strings and dictionaries used by the code *)

Module Py.

(** [str(n)] on an int. *)
Definition py_str (n : Z) : string := NilZero.string_of_int (Z.to_int n).

(** [k] characters ["0"]. *)
Definition zeros (k : nat) : string :=
  String.concat "" (repeat "0"%string k).

(** Padding with zeros on the left up to a width. *)
Definition zfill (width : nat) (digits : string) : string :=
  (zeros (width - String.length digits) ++ digits)%string.

(** [f"{n:03d}"]: at least three characters, the sign included. *)
Definition format_03d (n : Z) : string :=
  if n <? 0 then ("-" ++ zfill 2 (py_str (- n)))%string
  else zfill 3 (py_str n).

(** [s.split(sep)] for a separator of one character. *)
Fixpoint split_on (sep : ascii) (s : string) : list string :=
  match s with
  | EmptyString => [EmptyString]
  | String c s' =>
    if Ascii.eqb c sep then EmptyString :: split_on sep s'
    else match split_on sep s' with
         | piece :: rest => String c piece :: rest
         | [] => [String c EmptyString]
         end
  end.

(** [c in s] for a character [c]. *)
Fixpoint contains (c : ascii) (s : string) : bool :=
  match s with
  | EmptyString => false
  | String a s' => Ascii.eqb a c || contains c s'
  end.

(** [enumerate(l, start)] *)
Definition py_enumerate {A} (start : Z) (l : list A) : list (Z * A) :=
  combine (map (fun k => start + Z.of_nat k) (seq 0 (length l))) l.

(** A [dict] with string keys: the items in insertion order. *)
Definition dict (V : Type) : Type := list (string * V).

(** [d.get(k)] *)
Fixpoint dict_get {V} (d : dict V) (k : string) : option V :=
  match d with
  | [] => None
  | (k', v) :: d => if String.eqb k' k then Some v else dict_get d k
  end.

(** [d[k] = v]: a present key keeps its place. *)
Fixpoint dict_set {V} (d : dict V) (k : string) (v : V) : dict V :=
  match d with
  | [] => [(k, v)]
  | (k', v') :: d =>
    if String.eqb k' k then (k', v) :: d else (k', v') :: dict_set d k v
  end.

Definition keys {V} (d : dict V) : list string := map fst d.

(** The integer a string of decimal digits denotes, leading zeros
    allowed; used to tell formatted numbers apart. *)
Definition read_decimal (s : string) : option Z :=
  option_map Z.of_int (NilZero.int_of_string s).

End Py.

(** ** Saving frames: utils/frame_extractor.py *)

Module FrameSaving.
Import FrameExtractor Py.

(** The file system as the code uses it. *)
Class Disk {I : Imaging} : Type := {
  (** [output_dir.mkdir(parents=True, exist_ok=True)] *)
  mkdir : string -> result unit;
  (** [str(output_dir / filename)] *)
  joinpath : string -> string -> string;
  (** [cv2.imwrite(path, frame)]: whether the file is written; the call
      raises on an image it cannot encode. The code does not look at the
      value returned. *)
  cv2_imwrite : string -> frame -> result bool
}.

Section Saving.
Context {I : Imaging} {D : Disk}.

(** The image files on disk, by path. *)
Definition files : Type := dict frame.

(** The files after [cv2.imwrite(path, frame)]. *)
Definition imwrite (fs : files) (path : string) (frame : frame)
  : result files :=
  written <- cv2_imwrite path frame ;;
  Ok (if written : bool then dict_set fs path frame else fs).

(** The name of the file of frame number [i]. *)
Definition frame_filename (prefix : string) (i : Z) : string :=
  (prefix ++ "_" ++ format_03d i ++ ".jpg")%string.

(** The path of the file of frame number [i]. *)
Definition path_of (output_dir prefix : string) (i : Z) : string :=
  joinpath output_dir (frame_filename prefix i).

(** The body of the loop of [save_frames]. *)
Definition save_step (output_dir prefix : string)
    (acc : result (files * list string)) (x : Z * frame)
  : result (files * list string) :=
  st <- acc ;;
  let '(fs, saved_paths) := st in
  let '(i, frame) := x in
  let filename := frame_filename prefix i in
  let filepath := joinpath output_dir filename in
  fs <- imwrite fs filepath frame ;;
  Ok (fs, saved_paths ++ [filepath]).

(** [FrameExtractor.save_frames]: the files after the call and the list of
    paths returned. *)
Definition save_frames (fs : files) (frames : list frame)
    (output_dir prefix : string) : result (files * list string) :=
  _ <- mkdir output_dir ;;
  fold_left (save_step output_dir prefix) (py_enumerate 1 frames)
            (Ok (fs, [])).



End Saving.

(** Whether a string ends with a slash. *)
Fixpoint ends_with_slash (s : string) : bool :=
  match s with
  | EmptyString => false
  | String c EmptyString => Ascii.eqb c "/"
  | String _ rest => ends_with_slash rest
  end.

(** [str(Path(dir) / name)] on POSIX for a name that is not empty and does
    not end with a slash, when neither the directory nor the name has a
    doubled slash or a part [.] inside: a name that starts with a slash
    stands alone, a name joined to the directory [.] or to the empty
    directory is the name, and one slash separates the directory from the
    name otherwise. *)
Definition slash_join (dir name : string) : string :=
  match name with
  | String "/" _ => name
  | _ =>
    if String.eqb dir "." || String.eqb dir "" then name
    else if ends_with_slash dir then (dir ++ name)%string
    else (dir ++ "/" ++ name)%string
  end.


(** A disk on which no directory can be made. *)
Definition locked_disk : Disk (I := flat_imaging) := {|
  mkdir := fun _ => Raise LibraryError;
  joinpath := slash_join;
  cv2_imwrite := fun _ _ => Ok true
|}.

End FrameSaving.

(** ** VideoProcessor.split_video_into_coaches: utils/video_processor.py *)

Module VideoProcessorClips.
Import VideoProcessor Py.

(** The OpenCV and file-system calls of the splitter, by path. *)
Class Media : Type := {
  (** [cv2.VideoCapture(video_path).isOpened()] *)
  isOpened : string -> bool;
  (** [int(cap.get(cv2.CAP_PROP_FPS))] *)
  CAP_PROP_FPS : string -> Z;
  (** [int(cap.get(cv2.CAP_PROP_FRAME_COUNT))] *)
  CAP_PROP_FRAME_COUNT : string -> Z;
  (** [Path(video_path).stem] *)
  stem : string -> string;
  (** [out.isOpened()] for the [cv2.VideoWriter] on a path *)
  writer_isOpened : string -> bool;
  (** [os.path.exists(output_path)] once the writer is released *)
  path_exists : string -> bool
}.

(** One value of [coach_clips]. *)
Record coach_info : Type := {
  path : string;
  type : coach_type;
  info_start_frame : Z;
  info_end_frame : Z;
  start_time : Q;
  end_time : Q
}.

Section Splitter.
Context {M : Media}.

(** [_extract_coach_clip]: the path returned or the error raised. The
    frames copied into the clip are not part of the model: which frames
    [int(start_time * fps)] and [int(end_time * fps)] name depends on the
    rounding of the floats. *)
Definition _extract_coach_clip (video_path : string)
    (start_time end_time : Q) (output_filename : string) : result string :=
  if negb (isOpened video_path) then Raise ValueError
  else
    let output_path := ("temp_" ++ output_filename)%string in
    if negb (writer_isOpened output_path) then Raise ValueError
    else if negb (path_exists output_path) then Raise ValueError
    else Ok output_path.

(** [f"{video_name}_{i}.mp4"] *)
Definition coach_filename (video_name : string) (i : Z) : string :=
  (video_name ++ "_" ++ py_str i ++ ".mp4")%string.

(** The body of the loop over the boundaries. *)
Definition clip_step (video_path : string) (fps : Z) (video_name : string)
    (acc : result (dict coach_info)) (x : Z * boundary)
  : result (dict coach_info) :=
  coach_clips <- acc ;;
  let '(i, (start_frame, end_frame, coach_type)) := x in
  start_time <- py_truediv start_frame fps ;;
  end_time <- py_truediv end_frame fps ;;
  let coach_filename := coach_filename video_name i in
  coach_path <-
    _extract_coach_clip video_path start_time end_time coach_filename ;;
  Ok (dict_set coach_clips coach_filename
        {| path := coach_path;
           type := coach_type;
           info_start_frame := start_frame;
           info_end_frame := end_frame;
           start_time := start_time;
           end_time := end_time |}).

(** [VideoProcessor.split_video_into_coaches] *)
Definition split_video_into_coaches (video_path : string)
  : result (dict coach_info) :=
  if negb (isOpened video_path) then Raise ValueError
  else
    let fps := CAP_PROP_FPS video_path in
    let total_frames := CAP_PROP_FRAME_COUNT video_path in
    duration <- py_truediv total_frames fps ;;
    coach_boundaries <- _detect_coach_boundaries total_frames fps ;;
    let video_name := stem video_path in
    fold_left (clip_step video_path fps video_name)
              (py_enumerate 1 coach_boundaries) (Ok []).

(** The item of [coach_clips] for boundary number [i] when its clip is
    written. *)
Definition clip_item (fps : Z) (video_name : string) (x : Z * boundary)
  : string * coach_info :=
  let '(i, (start_frame, end_frame, coach_type)) := x in
  (coach_filename video_name i,
   {| path := ("temp_" ++ coach_filename video_name i)%string;
      type := coach_type;
      info_start_frame := start_frame;
      info_end_frame := end_frame;
      start_time := (inject_Z start_frame / inject_Z fps)%Q;
      end_time := (inject_Z end_frame / inject_Z fps)%Q |}).

(** Whether the clip of a file name can be written. *)
Definition writable (output_filename : string) : bool :=
  writer_isOpened ("temp_" ++ output_filename)
  && path_exists ("temp_" ++ output_filename).

End Splitter.

(** One video of 3000 frames at 30 frames per second, on a disk where every
    clip can be written. *)
#[export] Instance one_video : Media := {|
  isOpened := fun p => String.eqb p "in/12309.mp4";
  CAP_PROP_FPS := fun _ => 30;
  CAP_PROP_FRAME_COUNT := fun _ => 3000;
  stem := fun _ => "12309"%string;
  writer_isOpened := fun _ => true;
  path_exists := fun _ => true
|}.

(** The same video on a disk where the writer of the third clip does not
    open. *)
Definition third_clip_fails : Media := {|
  isOpened := fun p => String.eqb p "in/12309.mp4";
  CAP_PROP_FPS := fun _ => 30;
  CAP_PROP_FRAME_COUNT := fun _ => 3000;
  stem := fun _ => "12309"%string;
  writer_isOpened := fun p => negb (String.eqb p "temp_12309_3.mp4");
  path_exists := fun _ => true
|}.

End VideoProcessorClips.

(** ** FolderManager: utils/folder_manager.py *)

Module FolderManager.
Import Py.

(** [f"{train_number}_{coach_number}"], the name [create_coach_folder]
    gives the folder of a coach. *)
Definition coach_folder_name (train_number : string) (coach_number : Z)
  : string :=
  (train_number ++ "_" ++ py_str coach_number)%string.

(** [f"{train_number}_{coach_number}_components.json"] *)
Definition components_filename (train_number : string) (coach_number : Z)
  : string :=
  (train_number ++ "_" ++ py_str coach_number ++ "_components.json")%string.

(** The object of a component file; a key the object lacks is [None]. *)
Record component_data : Type := {
  train_number : option string;
  coach_number : option Z;
  doors_open : option Z;
  doors_closed : option Z;
  engines : option (list ComponentDetector.bbox);
  wagons : option (list ComponentDetector.bbox);
  total_components : option ComponentDetector.totals
}.

(** An entry of the output directory: its name, whether it is a directory,
    and the objects of the JSON files in it, by file name. The files are
    taken to hold objects whose values have the types the code writes;
    other contents are outside the model. *)
Record folder : Type := {
  name : string;
  is_dir : bool;
  files : dict component_data
}.

(** [_save_component_data]: the coach folder after the file is written. *)
Definition _save_component_data (components : ComponentDetector.components)
    (coach_folder : folder) (train_number : string) (coach_number : Z)
  : folder :=
  let component_data :=
    {| train_number := Some train_number;
       coach_number := Some coach_number;
       doors_open := Some (ComponentDetector.doors_open components);
       doors_closed := Some (ComponentDetector.doors_closed components);
       engines := Some (ComponentDetector.engines components);
       wagons := Some (ComponentDetector.wagons components);
       total_components :=
         Some (ComponentDetector.total_components components) |} in
  let json_path := components_filename train_number coach_number in
  {| name := name coach_folder;
     is_dir := is_dir coach_folder;
     files := dict_set (files coach_folder) json_path component_data |}.

(** The folder of a coach as [create_coach_folder] makes it when there is
    none yet, with the component file written into it. *)
Definition coach_folder (components : ComponentDetector.components)
    (train_number : string) (coach_number : Z) : folder :=
  _save_component_data components
    {| name := coach_folder_name train_number coach_number;
       is_dir := true;
       files := [] |}
    train_number coach_number.

End FolderManager.

(** ** CCTVMonitoringReport: cctv_monitoring_report.py *)

Module CCTVMonitoringReport.
Import Py.

(** What the collection of the data can raise: [IndexError] from an index
    into the parts of a name, [ValueError] from [int]. *)
Inductive error : Type := IndexError | IntValueError.

Definition attempt (A : Type) : Type := (error + A)%type.

Definition and_then {A B : Type} (m : attempt A) (k : A -> attempt B)
  : attempt B :=
  match m with
  | inl e => inl e
  | inr a => k a
  end.

(** [l[k]] on a list. *)
Definition index (l : list string) (k : nat) : attempt string :=
  match l !! k with
  | Some s => inr s
  | None => inl IndexError
  end.

(** One entry of [cctv_data['trains']]. *)
Record train_data : Type := {
  train_number : string;
  coach_number : Z;
  doors_open : Z;
  doors_closed : Z;
  engines : Z;
  wagons : Z
}.

(** The dictionary [_collect_cctv_data] returns, the time stamp apart. *)
Record cctv_data : Type := {
  total_trains : Z;
  total_coaches : Z;
  total_doors_open : Z;
  total_doors_closed : Z;
  trains : list train_data;
  train_groups : dict (list train_data)
}.

Section Collect.

(** [int(s)] on a string: [None] when it raises [ValueError]. *)
Variable int : string -> option Z.

(** The name of the component file looked for in a folder. *)
Definition component_file (folder_name : string) : attempt string :=
  and_then (index (split_on "_" folder_name) 0) (fun train_number =>
  and_then (index (split_on "_" folder_name) 1) (fun coach_number =>
  inr (train_number ++ "_" ++ coach_number ++ "_components.json")%string)).

(** The entry a folder contributes: none when the component file is not
    there. *)
Definition collect_folder (train_folder : FolderManager.folder)
  : attempt (option train_data) :=
  and_then (index (split_on "_" (FolderManager.name train_folder)) 0)
    (fun train_number =>
  and_then (index (split_on "_" (FolderManager.name train_folder)) 1)
    (fun coach_number =>
  let component_file :=
    (train_number ++ "_" ++ coach_number ++ "_components.json")%string in
  match dict_get (FolderManager.files train_folder) component_file with
  | Some component_data =>
    match int coach_number with
    | Some n =>
      inr (Some
        {| train_number := train_number;
           coach_number := n;
           doors_open := default 0 (FolderManager.doors_open component_data);
           doors_closed :=
             default 0 (FolderManager.doors_closed component_data);
           engines :=
             Z.of_nat (length
               (default [] (FolderManager.engines component_data)));
           wagons :=
             Z.of_nat (length
               (default [] (FolderManager.wagons component_data))) |})
    | None => inl IntValueError
    end
  | None => inr None
  end)).

(** The [for train_folder in train_folders] loop, on the entries appended
    so far and the two running totals. *)
Fixpoint collect_loop (train_folders : list FolderManager.folder)
    (st : list train_data * Z * Z) : attempt (list train_data * Z * Z) :=
  match train_folders with
  | [] => inr st
  | train_folder :: rest =>
    and_then (collect_folder train_folder) (fun found =>
    match found with
    | Some td =>
      let '(trains, open, closed) := st in
      collect_loop rest
        (trains ++ [td], open + doors_open td, closed + doors_closed td)
    | None => collect_loop rest st
    end)
  end.

(** The body of the [for train_data in cctv_data['trains']] loop; the key
    is in the dictionary when its list is read. *)
Definition group_step (train_groups : dict (list train_data))
    (td : train_data) : dict (list train_data) :=
  let train_num := train_number td in
  let train_groups :=
    match dict_get train_groups train_num with
    | None => dict_set train_groups train_num []
    | Some _ => train_groups
    end in
  dict_set train_groups train_num
    (default [] (dict_get train_groups train_num) ++ [td]).

(** [_collect_cctv_data], on the entries of an existing [processed_dir]
    in the order [iterdir] gives them. *)
Definition _collect_cctv_data (processed_dir : list FolderManager.folder)
  : attempt cctv_data :=
  let train_folders :=
    List.filter
      (fun f => FolderManager.is_dir f && contains "_" (FolderManager.name f))
      processed_dir in
  and_then (collect_loop train_folders ([], 0, 0)) (fun st =>
  let '(trains, open, closed) := st in
  let train_groups := fold_left group_step trains [] in
  inr {| total_trains := Z.of_nat (length train_groups);
         total_coaches := Z.of_nat (length trains);
         total_doors_open := open;
         total_doors_closed := closed;
         trains := trains;
         train_groups := train_groups |}).

End Collect.

(** Whether an entry is of train [k]. *)
Definition of_train (k : string) (t : train_data) : bool :=
  String.eqb (train_number t) k.

(** [g] groups the entries [l] by train: one key per train, each holding
    the entries of its train in the order of [l]. *)
Definition grouped (g : dict (list train_data)) (l : list train_data)
  : Prop :=
  List.NoDup (keys g) /\
  forall k, dict_get g k
            = match List.filter (of_train k) l with
              | [] => None
              | fl => Some fl
              end.

(** The entry expected for a coach with the components [c]. *)
Definition entry_of (x : string * Z * ComponentDetector.components)
  : train_data :=
  let '(t, n, c) := x in
  {| train_number := t;
     coach_number := n;
     doors_open := ComponentDetector.doors_open c;
     doors_closed := ComponentDetector.doors_closed c;
     engines := Z.of_nat (length (ComponentDetector.engines c));
     wagons := Z.of_nat (length (ComponentDetector.wagons c)) |}.

(** The folder [FolderManager] writes for a coach. *)
Definition written (x : string * Z * ComponentDetector.components)
  : FolderManager.folder :=
  let '(t, n, c) := x in FolderManager.coach_folder c t n.

(** [int] on the strings of decimal digits with an optional minus sign. *)
Definition decimal_int (s : string) : option Z := read_decimal s.

(** A folder that no coach was written into, with a file named as a
    component file. *)
Definition stray_folder : FolderManager.folder :=
  {| FolderManager.name := "cam_east";
     FolderManager.is_dir := true;
     FolderManager.files :=
       [("cam_east_components.json"%string,
         {| FolderManager.train_number := None;
            FolderManager.coach_number := None;
            FolderManager.doors_open := None;
            FolderManager.doors_closed := None;
            FolderManager.engines := None;
            FolderManager.wagons := None;
            FolderManager.total_components := None |})] |}.

(** Components with one open door, two closed doors and one wagon. *)
Definition some_components : ComponentDetector.components :=
  {| ComponentDetector.doors_open := 1;
     ComponentDetector.doors_closed := 2;
     ComponentDetector.engines := [];
     ComponentDetector.wagons := [(0, 0, 100, 60)];
     ComponentDetector.annotations := [] |}.

End CCTVMonitoringReport.

(** * Properties *)

Lemma Qltb_lt (a b : Q) : Qltb a b = true <-> (a < b)%Q.
Proof. unfold Qltb, Qlt. apply Z.ltb_lt. Qed.

Lemma Qltb_ge (a b : Q) : Qltb a b = false <-> (b <= a)%Q.
Proof. unfold Qltb, Qle. apply Z.ltb_ge. Qed.

(** ** The coach segmenter *)

Module SegmenterFacts.
Import VideoProcessor.

Lemma loop_appends t s (l : list Z) (acc : list boundary) :
  fold_left (loop_body t s) l acc = acc ++ map (segment t s) l.
Proof.
  revert acc. induction l as [|i l IH]; intros acc; simpl.
  - now rewrite app_nil_r.
  - rewrite IH. unfold loop_body, segment. now rewrite <- app_assoc.
Qed.

Lemma num_coaches_bounds d : 6 <= num_coaches_of d <= 12.
Proof. unfold num_coaches_of. lia. Qed.

Lemma py_int_floor (x : Q) : (0 <= x)%Q -> py_int x = Qfloor x.
Proof.
  destruct x as [n d]. unfold Qle, py_int, Qfloor. simpl. intros H.
  apply Z.quot_div_nonneg; lia.
Qed.

Lemma duration_nonneg t f :
  0 <= t -> 0 < f -> (0 <= inject_Z t / inject_Z f / 15)%Q.
Proof.
  intros Ht Hf. apply Qle_shift_div_l; [reflexivity|]. rewrite Qmult_0_l.
  apply Qle_shift_div_l.
  - unfold Qlt; simpl; lia.
  - rewrite Qmult_0_l. unfold Qle; simpl; lia.
Qed.

Lemma duration_floor t f :
  0 < f -> Qfloor (inject_Z t / inject_Z f / 15)%Q = t / (15 * f).
Proof.
  intros Hf.
  assert (E : (inject_Z t / inject_Z f / 15
               == inject_Z t / inject_Z (15 * f))%Q).
  { rewrite inject_Z_mult. field.
    intros H. unfold Qeq in H. simpl in H. lia. }
  rewrite E. symmetry. apply Zdiv_Qdiv.
Qed.

(** What the function returns whenever the frame rate is not zero. *)
Lemma boundaries_eq t f :
  f <> 0 ->
  let n := num_coaches_of (inject_Z t / inject_Z f)%Q in
  _detect_coach_boundaries t f = Ok (map (segment t (t / n)) (py_range n)).
Proof.
  intros Hf n. unfold _detect_coach_boundaries, py_truediv.
  destruct (Z.eqb_spec f 0) as [|_]; [contradiction|]. simpl.
  fold n. unfold py_floordiv.
  pose proof (num_coaches_bounds (inject_Z t / inject_Z f)%Q) as Hn. fold n in Hn.
  destruct (Z.eqb_spec n 0) as [E|_]; [lia|]. simpl.
  now rewrite loop_appends.
Qed.

Lemma length_py_range n : 0 <= n -> Z.of_nat (length (py_range n)) = n.
Proof. intros Hn. unfold py_range. rewrite length_map, length_seq. lia. Qed.

Lemma lookup_py_range {A} (g : Z -> A) n (i : nat) :
  map g (py_range n) !! i =
  if decide (i < Z.to_nat n)%nat then Some (g (Z.of_nat i)) else None.
Proof.
  unfold py_range. rewrite map_map.
  change (map (fun x => g (Z.of_nat x)) (seq 0 (Z.to_nat n)))
    with ((fun x => g (Z.of_nat x)) <$> seq 0 (Z.to_nat n)).
  rewrite list_lookup_fmap.
  destruct (decide (i < Z.to_nat n)%nat) as [Hi|Hi].
  - now rewrite (lookup_seq_lt 0 _ _ Hi).
  - rewrite lookup_seq_ge; [reflexivity|lia].
Qed.

Section Partition.
Variables t n : Z.
Hypothesis Ht : 0 < t.
Hypothesis Hn : 0 < n.

Let segs := map (segment t (t / n)) (py_range n).

Lemma segment_end (i : nat) :
  (i < Z.to_nat n)%nat ->
  end_frame (segment t (t / n) (Z.of_nat i)) = (Z.of_nat i + 1) * (t / n).
Proof.
  intros Hi. unfold end_frame, segment. simpl.
  assert (0 <= t / n) by (apply Z.div_pos; lia).
  assert (n * (t / n) <= t) by (apply Z.mul_div_le; lia).
  nia.
Qed.

Lemma segs_contiguous : contiguous segs.
Proof.
  intros i a b. unfold segs. rewrite !lookup_py_range.
  destruct (decide (i < Z.to_nat n)%nat) as [Hi|]; [|discriminate].
  destruct (decide (S i < Z.to_nat n)%nat); [|discriminate].
  intros [= <-] [= <-]. rewrite segment_end by assumption.
  unfold start_frame, segment. simpl. lia.
Qed.

Lemma segs_start : starts_at segs 0.
Proof.
  exists (segment t (t / n) 0). split; [|reflexivity].
  rewrite head_lookup. unfold segs. rewrite lookup_py_range.
  destruct (decide (0 < Z.to_nat n)%nat); [reflexivity|lia].
Qed.

Lemma segs_end : ends_at segs (t - t mod n).
Proof.
  exists (segment t (t / n) (n - 1)). split.
  - rewrite last_lookup. unfold segs at 2. rewrite lookup_py_range.
    unfold segs. rewrite length_map. unfold py_range.
    rewrite length_map, length_seq.
    destruct (decide (Nat.pred (Z.to_nat n) < Z.to_nat n)%nat); [|lia].
    do 2 f_equal. lia.
  - replace (n - 1) with (Z.of_nat (Z.to_nat n - 1)) by lia.
    rewrite segment_end by lia.
    replace (Z.of_nat (Z.to_nat n - 1) + 1) with n by lia.
    rewrite Z.mod_eq by lia. ring.
Qed.

Lemma segs_engine_first : engine_first segs.
Proof.
  intros i b. unfold segs. rewrite lookup_py_range.
  destruct (decide (i < Z.to_nat n)%nat); [|discriminate].
  intros [= <-]. unfold tag, segment. simpl.
  destruct i; [reflexivity|].
  destruct (Z.eqb_spec (Z.of_nat (S i)) 0); [lia|reflexivity].
Qed.
End Partition.

Lemma ends_at_unique (l : list boundary) e1 e2 :
  ends_at l e1 -> ends_at l e2 -> e1 = e2.
Proof. intros (b1 & H1 & <-) (b2 & H2 & <-). congruence. Qed.

(** C1, as stated, fails: 305 frames at 30 fps give six segments of 50
    frames, the last one ending at frame 300, so frames 300 to 304 belong to
    no segment. *)
Lemma partition_not_exact_305 :
  exists l, _detect_coach_boundaries 305 30 = Ok l /\ ~ exact_partition 305 l.
Proof.
  eexists. split; [vm_compute; reflexivity|].
  intros (_ & _ & (b & Hl & He) & _).
  vm_compute in Hl. injection Hl as <-. vm_compute in He. discriminate.
Qed.

(** C1, amended: for every valid input (total_frame_count > 0,
    frame_rate > 0) the segmenter returns segments that are contiguous
    (each one ends where the next starts), start at frame 0, have the engine
    tag on exactly the first segment and the wagon tag on all others, and end
    at total_frame_count - (total_frame_count mod num_coaches): the segments
    all have the same length total_frame_count // num_coaches, and the last
    one ends at total_frame_count exactly when num_coaches divides
    total_frame_count. *)
Theorem boundaries_equal_segments t f :
  0 < t -> 0 < f ->
  exists l, _detect_coach_boundaries t f = Ok l /\
    let n := Z.of_nat (length l) in
    contiguous l /\ starts_at l 0 /\ ends_at l (t - t mod n) /\
    engine_first l /\ 0 <= t mod n < n /\
    (ends_at l t <-> t mod n = 0) /\
    (forall (i : nat) b, l !! i = Some b ->
       end_frame b - start_frame b = t / n).
Proof.
  intros Ht Hf. eexists. split; [apply boundaries_eq; lia|].
  set (n := num_coaches_of _).
  pose proof (num_coaches_bounds (inject_Z t / inject_Z f)%Q) as Hn. fold n in Hn.
  rewrite length_map, length_py_range by lia. cbv zeta.
  pose proof (segs_end t n Ht ltac:(lia)) as He.
  split; [apply segs_contiguous; lia|].
  split; [apply segs_start; lia|].
  split; [exact He|].
  split; [apply segs_engine_first|].
  split; [apply Z.mod_pos_bound; lia|].
  split; [split|].
  - intros He'. pose proof (ends_at_unique _ _ _ He He'). lia.
  - intros E. rewrite E, Z.sub_0_r in He. exact He.
  - intros i b. rewrite lookup_py_range.
    destruct (decide (i < Z.to_nat n)%nat) as [Hi|]; [|discriminate].
    intros [= <-]. rewrite segment_end by (lia || assumption).
    unfold start_frame, segment. cbn [fst]. lia.
Qed.

Lemma boundaries_equal_segments_witness :
  exists l, _detect_coach_boundaries 305 30 = Ok l /\
    let n := Z.of_nat (length l) in
    contiguous l /\ starts_at l 0 /\ ends_at l (305 - 305 mod n) /\
    engine_first l /\ 0 <= 305 mod n < n /\
    (ends_at l 305 <-> 305 mod n = 0) /\
    (forall (i : nat) b, l !! i = Some b ->
       end_frame b - start_frame b = 305 / n).
Proof. apply (boundaries_equal_segments 305 30); lia. Defined.

(** C2, as stated, fails: 3000 frames at 30 fps last 100 seconds; 100 / 15
    is 6.67, which rounds to 7, and the segmenter returns 6 segments. *)
Lemma num_coaches_not_rounded_3000 :
  exists l, _detect_coach_boundaries 3000 30 = Ok l /\
            Z.of_nat (length l) <> spec_num_coaches 3000 30.
Proof. eexists. split; [vm_compute; reflexivity|]. vm_compute. discriminate. Qed.

(** C2, amended: for every valid input (total_frame_count > 0,
    frame_rate > 0) the number of segments is
    clamp(floor((total_frame_count / frame_rate) / 15), 6, 12): the quotient
    is truncated, not rounded to the nearest integer; this is the integer
    quotient of total_frame_count by 15 * frame_rate, clamped to [6, 12]. *)
Theorem num_coaches_truncated t f :
  0 < t -> 0 < f ->
  exists l, _detect_coach_boundaries t f = Ok l /\
    Z.of_nat (length l)
      = Z.min 12 (Z.max 6 (Qfloor (inject_Z t / inject_Z f / 15)%Q)) /\
    Z.of_nat (length l) = Z.min 12 (Z.max 6 (t / (15 * f))).
Proof.
  intros Ht Hf. eexists. split; [apply boundaries_eq; lia|].
  pose proof (num_coaches_bounds (inject_Z t / inject_Z f)%Q) as Hn.
  rewrite length_map, length_py_range by lia.
  unfold num_coaches_of.
  rewrite py_int_floor by (apply duration_nonneg; lia).
  rewrite duration_floor by lia. split; reflexivity.
Qed.

Lemma num_coaches_truncated_witness :
  exists l, _detect_coach_boundaries 3000 30 = Ok l /\
    Z.of_nat (length l)
      = Z.min 12 (Z.max 6 (Qfloor (inject_Z 3000 / inject_Z 30 / 15)%Q)) /\
    Z.of_nat (length l) = Z.min 12 (Z.max 6 (3000 / (15 * 30))).
Proof. apply (num_coaches_truncated 3000 30); lia. Defined.

(** C9: for every valid input (total_frame_count > 0, frame_rate > 0) the
    boundary computation raises nothing and returns a segment list: the two
    divisions have non-zero divisors (the frame rate, and a segment count of
    at least 6) and the loop only multiplies, compares and appends. *)
Theorem boundaries_no_error t f :
  0 < t -> 0 < f ->
  (exists l, _detect_coach_boundaries t f = Ok l) /\
  (forall e, _detect_coach_boundaries t f <> Raise e).
Proof.
  intros Ht Hf. rewrite boundaries_eq by lia. split; [eauto|discriminate].
Qed.

Lemma boundaries_no_error_witness :
  (exists l, _detect_coach_boundaries 300 30 = Ok l) /\
  (forall e, _detect_coach_boundaries 300 30 <> Raise e).
Proof. apply (boundaries_no_error 300 30); lia. Defined.

(** The only error the segmenter can raise is the division by a zero frame
    rate. *)
Lemma boundaries_raise_iff t f e :
  _detect_coach_boundaries t f = Raise e <-> f = 0 /\ e = ZeroDivisionError.
Proof.
  split.
  - intros H. destruct (Z.eq_dec f 0) as [->|Hf].
    + unfold _detect_coach_boundaries, py_truediv in H. simpl in H.
      split; congruence.
    + rewrite boundaries_eq in H by assumption. discriminate.
  - intros [-> ->]. reflexivity.
Qed.

(** Scenario A of the specification: 300 frames at 30 fps. *)
Example scenario_A :
  _detect_coach_boundaries 300 30 =
  Ok [(0, 50, engine); (50, 100, wagon); (100, 150, wagon);
      (150, 200, wagon); (200, 250, wagon); (250, 300, wagon)].
Proof. reflexivity. Qed.

End SegmenterFacts.

(** ** The keyframe selector *)

Module SelectorFacts.
Import FrameExtractor.

Section Selector.
Context {I : Imaging}.

Lemma similarity_score a b : _calculate_similarity a b = Ok (score a b).
Proof.
  unfold _calculate_similarity, score, try_except.
  now destruct (similarity_body a b).
Qed.

Lemma py_max_0_nonneg v : (0 <= py_max 0 v)%Q.
Proof.
  unfold py_max. destruct (Qltb 0 v) eqn:E.
  - apply Qltb_lt in E. now apply Qlt_le_weak.
  - apply Qle_refl.
Qed.

Lemma py_max_0_le_1 v : (v <= 1)%Q -> (py_max 0 v <= 1)%Q.
Proof.
  unfold py_max. destruct (Qltb 0 v); [trivial|]. intros _. discriminate.
Qed.

Lemma shape_eqb_eq a b : shape_eqb a b = true <-> a = b.
Proof.
  destruct a as [r c], b as [r' c']. unfold shape_eqb. simpl.
  rewrite andb_true_iff, !Z.eqb_eq. split; [intros [-> ->]|intros [= -> ->]]; auto.
Qed.

Lemma below_score τ r g : below τ r g = Qltb (score r g) τ.
Proof. unfold below. now rewrite similarity_score. Qed.

(** One iteration of the loop, by cases. *)
Lemma scan_skip si τ t f rest idx ref frames :
  (idx mod si =? 0) = false ->
  scan si τ t (f :: rest) idx ref frames = scan si τ t rest (idx + 1) ref frames.
Proof. intros H. simpl. now rewrite H. Qed.

Lemma scan_first si τ t f rest idx frames :
  (idx mod si =? 0) = true ->
  scan si τ t (f :: rest) idx None frames
  = scan si τ t rest (idx + 1) (Some (cvtColor f)) (frames ++ [f]).
Proof. intros H. simpl. now rewrite H. Qed.

Lemma scan_similar si τ t f rest idx r frames :
  (idx mod si =? 0) = true ->
  Qltb (score r (cvtColor f)) τ = false ->
  scan si τ t (f :: rest) idx (Some r) frames
  = scan si τ t rest (idx + 1) (Some r) frames.
Proof. intros H E. simpl. rewrite H, similarity_score. simpl. now rewrite E. Qed.

Lemma scan_select si τ t f rest idx r frames :
  (idx mod si =? 0) = true ->
  Qltb (score r (cvtColor f)) τ = true ->
  scan si τ t (f :: rest) idx (Some r) frames
  = if Z.of_nat (length (frames ++ [f])) >=? t then Ok (frames ++ [f])
    else scan si τ t rest (idx + 1) (Some (cvtColor f)) (frames ++ [f]).
Proof. intros H E. simpl. rewrite H, similarity_score. simpl. now rewrite E. Qed.

(** The loop raises nothing, keeps what was already selected and, once a
    reference is set, stays within [max(len(frames) + 1, target_frames)]. *)
Lemma scan_result si τ t rest :
  forall idx ref frames,
  exists l more, scan si τ t rest idx ref frames = Ok l /\ l = frames ++ more /\
    (ref <> None ->
     Z.of_nat (length l) <= Z.max (Z.of_nat (length frames) + 1) t).
Proof.
  induction rest as [|f rest IH]; intros idx ref frames.
  - exists frames, []. simpl. rewrite app_nil_r. repeat split; lia.
  - destruct (idx mod si =? 0) eqn:Hs.
    + destruct ref as [r|].
      * destruct (Qltb (score r (cvtColor f)) τ) eqn:E.
        -- rewrite scan_select by assumption.
           rewrite Z.geb_leb.
           destruct (Z.leb_spec t (Z.of_nat (length (frames ++ [f])))) as [Hl|Hl].
           ++ exists (frames ++ [f]), [f]. repeat split.
              rewrite length_app. simpl. lia.
           ++ destruct (IH (idx + 1) (Some (cvtColor f)) (frames ++ [f]))
                as (l & more & -> & -> & Hb).
              exists ((frames ++ [f]) ++ more), (f :: more).
              repeat split; [now rewrite <- app_assoc|].
              intros _. specialize (Hb ltac:(discriminate)).
              rewrite !length_app in Hb |- *. rewrite length_app in Hl.
              simpl in *. lia.
        -- rewrite scan_similar by assumption. apply IH.
      * rewrite scan_first by assumption.
        destruct (IH (idx + 1) (Some (cvtColor f)) (frames ++ [f]))
          as (l & more & -> & -> & _).
        exists ((frames ++ [f]) ++ more), (f :: more).
        repeat split; [now rewrite <- app_assoc|]. intros H. now destruct H.
    + rewrite scan_skip by assumption. apply IH.
Qed.

Lemma sample_interval_pos q : (0 mod Z.max 1 q =? 0) = true.
Proof. now rewrite Z.mod_0_l by lia. Qed.

(** For an opened video with a readable first frame and a non-zero
    target, the selector returns a list that starts with that frame and
    holds at most [max(2, target_frames)] frames. *)
Lemma keyframes_nonempty (v : Video) τ t f rest :
  isOpened v = true -> t <> 0 -> stream v = f :: rest ->
  exists more, extract_key_frames v τ t = Ok (f :: more) /\
               Z.of_nat (length (f :: more)) <= Z.max 2 t.
Proof.
  intros Ho Ht Hs. unfold extract_key_frames, py_floordiv.
  rewrite Ho, Hs. simpl negb. cbv iota.
  destruct (Z.eqb_spec (t * 3) 0) as [|_]; [lia|]. cbn [bind].
  rewrite scan_first by apply sample_interval_pos.
  destruct (scan_result (Z.max 1 (CAP_PROP_FRAME_COUNT v / (t * 3))) τ t rest
              (0 + 1) (Some (cvtColor f)) ([] ++ [f]))
    as (l & more & -> & -> & Hb).
  specialize (Hb ltac:(discriminate)). simpl in Hb |- *.
  exists more. split; [reflexivity|]. simpl. lia.
Qed.

Lemma keyframes_length_bound (v : Video) τ t l :
  2 <= t -> extract_key_frames v τ t = Ok l -> Z.of_nat (length l) <= t.
Proof.
  intros Ht H. unfold extract_key_frames in H.
  destruct (isOpened v) eqn:Ho; [|discriminate].
  destruct (stream v) as [|f rest] eqn:Hs.
  - unfold py_floordiv in H. simpl in H.
    destruct (t * 3 =? 0); [discriminate|].
    simpl in H. injection H as <-. simpl. lia.
  - destruct (keyframes_nonempty v τ t f rest Ho ltac:(lia) Hs) as (more & E & Hb).
    unfold extract_key_frames in E. rewrite Ho, Hs in E. simpl in E.
    simpl in H. rewrite E in H. injection H as <-. lia.
Qed.

(** With a target of at least two, the loop computes the selection rule of
    the specification. *)
Lemma scan_refines si τ t rest :
  forall idx ref frames,
  Z.of_nat (length frames) < t ->
  (ref = None -> Z.of_nat (length frames) + 1 < t) ->
  scan si τ t rest idx ref frames
  = Ok (spec_select τ t (sampled si idx rest) ref frames).
Proof.
  induction rest as [|f rest IH]; intros idx ref frames Hl Hn.
  - simpl. destruct (Z.of_nat (length frames) >=? t); reflexivity.
  - assert (Hc : (Z.of_nat (length frames) >=? t) = false)
      by (rewrite Z.geb_leb; apply Z.leb_gt; lia).
    simpl sampled. destruct (idx mod si =? 0) eqn:Hs.
    + simpl spec_select. rewrite Hc. destruct ref as [r|].
      * rewrite below_score.
        destruct (Qltb (score r (cvtColor f)) τ) eqn:E.
        -- rewrite scan_select by assumption. rewrite Z.geb_leb.
           destruct (Z.leb_spec t (Z.of_nat (length (frames ++ [f])))) as [Hf|Hf].
           ++ destruct (sampled si (idx + 1) rest); simpl;
                rewrite Z.geb_leb; now apply Z.leb_le in Hf as ->.
           ++ apply IH; [assumption|discriminate].
        -- rewrite scan_similar by assumption. apply IH; [assumption|discriminate].
      * rewrite scan_first by assumption.
        specialize (Hn eq_refl).
        apply IH; [|discriminate]. rewrite length_app. simpl. lia.
    + rewrite scan_skip by assumption. now apply IH.
Qed.

(** The fallback after the loop never adds a frame: the loop already
    selected the first frame of a stream that has one. *)
Lemma keyframes_scan (v : Video) τ t :
  isOpened v = true -> t <> 0 ->
  extract_key_frames v τ t
  = scan (Z.max 1 (CAP_PROP_FRAME_COUNT v / (t * 3))) τ t (stream v) 0 None [].
Proof.
  intros Ho Ht. unfold extract_key_frames, py_floordiv. rewrite Ho.
  destruct (Z.eqb_spec (t * 3) 0) as [|_]; [lia|]. cbn [negb bind].
  destruct (stream v) as [|f rest]; [reflexivity|].
  rewrite scan_first by apply sample_interval_pos.
  destruct (scan_result (Z.max 1 (CAP_PROP_FRAME_COUNT v / (t * 3))) τ t rest
              (0 + 1) (Some (cvtColor f)) ([] ++ [f]))
    as (l & more & -> & -> & _).
  reflexivity.
Qed.

Lemma keyframes_refine (v : Video) τ t :
  isOpened v = true -> 2 <= t ->
  extract_key_frames v τ t = Ok (spec_keyframes v τ t).
Proof.
  intros Ho Ht. rewrite keyframes_scan by (trivial; lia).
  apply scan_refines; simpl; lia.
Qed.

(** With a target of one, a second frame that differs from the first is
    selected as well, whatever the library computes: the length check comes
    only after that append. *)
Lemma target_one_overshoot (v : Video) τ f0 f1 rest :
  isOpened v = true -> 0 <= CAP_PROP_FRAME_COUNT v < 6 ->
  stream v = f0 :: f1 :: rest ->
  Qltb (score (cvtColor f0) (cvtColor f1)) τ = true ->
  extract_key_frames v τ 1 = Ok [f0; f1].
Proof.
  intros Ho Hn Hs Hlt. rewrite keyframes_scan by (trivial; lia). rewrite Hs.
  replace (Z.max 1 (CAP_PROP_FRAME_COUNT v / (1 * 3))) with 1
    by (assert (CAP_PROP_FRAME_COUNT v / (1 * 3) <= 1)
          by (apply Z.lt_succ_r, Z.div_lt_upper_bound; lia); lia).
  rewrite scan_first by reflexivity.
  rewrite scan_select by (trivial; apply Z.mod_1_r).
  reflexivity.
Qed.

(** C8: the similarity function raises nothing and returns a score in
    [0, 1] (the lower bound by its own [max(0, _)], the upper bound from the
    range of the library's structural similarity); when the images differ
    in shape the second is resized to the (width, height) of the first
    before the comparison; and when the resize or the comparison raises,
    the score is 0. *)
Theorem similarity_never_raises (f1 f2 : gray) :
  (forall g v, ssim f1 g = Ok v -> (v <= 1)%Q) ->
  exists s, _calculate_similarity f1 f2 = Ok s /\ (0 <= s <= 1)%Q /\
    (forall v, shape f1 = shape f2 -> ssim f1 f2 = Ok v -> s = py_max 0 v) /\
    (forall r v, shape f1 <> shape f2 ->
       resize f2 (snd (shape f1), fst (shape f1)) = Ok r ->
       ssim f1 r = Ok v -> s = py_max 0 v) /\
    (forall e, shape f1 = shape f2 -> ssim f1 f2 = Raise e -> s = 0%Q) /\
    (forall e, shape f1 <> shape f2 ->
       resize f2 (snd (shape f1), fst (shape f1)) = Raise e -> s = 0%Q) /\
    (forall r e, shape f1 <> shape f2 ->
       resize f2 (snd (shape f1), fst (shape f1)) = Ok r ->
       ssim f1 r = Raise e -> s = 0%Q).
Proof.
  intros Hrange. exists (score f1 f2). split; [apply similarity_score|].
  unfold score, similarity_body.
  destruct (shape_eqb (shape f1) (shape f2)) eqn:Hsh; simpl.
  - apply shape_eqb_eq in Hsh.
    destruct (ssim f1 f2) as [v|e] eqn:Hv; simpl.
    + split; [split; [apply py_max_0_nonneg|apply py_max_0_le_1; eauto]|].
      repeat split; try congruence; intros; contradiction.
    + split; [split; [apply Qle_refl|discriminate]|].
      repeat split; try congruence; intros; contradiction.
  - assert (Hne : shape f1 <> shape f2).
    { intros H. apply shape_eqb_eq in H. congruence. }
    destruct (resize f2 (snd (shape f1), fst (shape f1))) as [r|e] eqn:Hr; simpl.
    + destruct (ssim f1 r) as [v|e] eqn:Hv; simpl.
      * split; [split; [apply py_max_0_nonneg|apply py_max_0_le_1; eauto]|].
        repeat split; try congruence; intros; contradiction.
      * split; [split; [apply Qle_refl|discriminate]|].
        repeat split; try congruence; intros; contradiction.
    + split; [split; [apply Qle_refl|discriminate]|].
      repeat split; try congruence; intros; contradiction.
Qed.

(** C7, amended: for every frame on which the library's structural
    similarity of the frame with itself succeeds with the value 1, the
    similarity function returns 1, and a frame whose grey image is the
    current reference is never selected, for any threshold up to 1: the
    loop goes on with the same reference and the same keyframes. *)
Theorem identical_frame_not_selected (r : gray) (v : Q) :
  ssim r r = Ok v -> (v == 1)%Q ->
  (exists s, _calculate_similarity r r = Ok s /\ (s == 1)%Q) /\
  (forall si τ t f rest idx frames,
     (τ <= 1)%Q -> cvtColor f = r ->
     scan si τ t (f :: rest) idx (Some r) frames
     = scan si τ t rest (idx + 1) (Some r) frames).
Proof.
  intros Hv H1.
  assert (Hs : score r r = v).
  { unfold score, similarity_body.
    replace (shape_eqb (shape r) (shape r)) with true
      by (symmetry; now apply shape_eqb_eq).
    simpl. rewrite Hv. simpl. unfold py_max.
    replace (Qltb 0 v) with true; [reflexivity|].
    symmetry. apply Qltb_lt. rewrite H1. reflexivity. }
  split.
  - exists v. now rewrite similarity_score, Hs.
  - intros si τ t f rest idx frames Hτ <-.
    destruct (idx mod si =? 0) eqn:E.
    + apply scan_similar; [assumption|]. rewrite Hs.
      apply Qltb_ge. now rewrite H1.
    + now apply scan_skip.
Qed.

End Selector.

Lemma flat_ssim_le_1 (a b : flat) (v : Q) : flat_ssim a b = Ok v -> (v <= 1)%Q.
Proof.
  unfold flat_ssim.
  destruct (negb _); [discriminate|]. destruct (_ || _); [discriminate|].
  intros [= <-]. generalize (level a) (level b). intros x y.
  pose proof (Z.square_nonneg (x - y)) as Hxy.
  pose proof (Z.square_nonneg x) as Hx.
  pose proof (Z.square_nonneg y) as Hy.
  apply Qle_shift_div_r.
  - unfold Qlt, flat_C1, Qplus, inject_Z. cbn [Qnum Qden]. lia.
  - unfold Qle, flat_C1, Qplus, Qmult, inject_Z. cbn [Qnum Qden].
    change (Z.pos (1 * (1 * 400))) with 400. lia.
Qed.

Lemma similarity_never_raises_witness :
  exists s, _calculate_similarity (uniform 100)
              {| rows := 240; cols := 320; level := 200 |} = Ok s /\
            (0 <= s <= 1)%Q.
Proof.
  destruct (similarity_never_raises (I := flat_imaging) (uniform 100)
              {| rows := 240; cols := 320; level := 200 |}
              (flat_ssim_le_1 (uniform 100))) as (s & E & R & _).
  exists s. split; assumption.
Defined.

(** C7, as stated, fails on a frame for which the comparison raises: a
    4 by 4 frame is narrower than the comparison window, the library raises,
    the except clause returns 0, and the second of two identical frames is
    selected as a new keyframe. *)
Lemma tiny_frame_differs_from_itself :
  _calculate_similarity tiny tiny = Ok 0%Q /\ ~ (0 == 1)%Q /\
  extract_key_frames (clip 2 [tiny; tiny]) (9 # 10) 8 = Ok [tiny; tiny].
Proof. repeat split. discriminate. Qed.

Lemma identical_frame_not_selected_witness :
  (exists s, _calculate_similarity (uniform 100) (uniform 100) = Ok s /\
             (s == 1)%Q) /\
  (forall si τ t f rest idx frames,
     (τ <= 1)%Q -> cvtColor f = uniform 100 ->
     scan si τ t (f :: rest) idx (Some (uniform 100)) frames
     = scan si τ t rest (idx + 1) (Some (uniform 100)) frames).
Proof.
  apply (identical_frame_not_selected (I := flat_imaging) (uniform 100) _
           eq_refl).
  reflexivity.
Defined.

(** C4 on the code: with target_frames = 1 and two readable frames of
    different content the selector returns both frames, one more than the
    target: the first frame is appended without the length check that
    follows every later append. *)
Theorem target_one_returns_two :
  exists l, extract_key_frames (clip 2 [uniform 0; uniform 255]) (9 # 10) 1
            = Ok l /\ Z.of_nat (length l) = 2 /\ 1 < Z.of_nat (length l).
Proof. exists [uniform 0; uniform 255]. repeat split. Qed.

(** C5 on the code: with target_frames = 1 the selection does not stop once
    one keyframe is collected; the second sampled frame is compared and
    selected, where the rule of the specification stops after the first. *)
Theorem target_one_keeps_selecting :
  extract_key_frames (clip 3 [uniform 0; uniform 255; uniform 0]) (9 # 10) 1
  = Ok [uniform 0; uniform 255] /\
  spec_keyframes (clip 3 [uniform 0; uniform 255; uniform 0]) (9 # 10) 1
  = [uniform 0].
Proof. split; reflexivity. Qed.

(** Scenario D of the specification: a single-frame clip. *)
Example scenario_D :
  extract_key_frames (clip 1 [uniform 7]) (9 # 10) 8 = Ok [uniform 7].
Proof. reflexivity. Qed.

(** A slow drift: each frame stays similar to the moving reference. *)
Example static_clip :
  extract_key_frames (clip 3 [uniform 100; uniform 101; uniform 100]) (9 # 10) 8
  = Ok [uniform 100].
Proof. reflexivity. Qed.

End SelectorFacts.

(** ** The component classifier *)

Module ClassifierFacts.
Import ComponentDetector.

Lemma sumZ_app l1 l2 : sumZ (l1 ++ l2) = sumZ l1 + sumZ l2.
Proof. induction l1 as [|a l1 IH]; simpl; lia. Qed.

Section Classifier.
Context {V : Vision}.

Lemma door_step_cases frame d c :
  door_step frame d c =
  if door_like c then
    {| open := open d + (if is_open (door_entry frame c) then 1 else 0);
       closed := closed d + (if is_open (door_entry frame c) then 0 else 1);
       door_boxes := door_boxes d ++ [door_entry frame c] |}
  else d.
Proof.
  unfold door_step, door_like, door_entry, is_open.
  destruct (boundingRect c) as [[[x y] w] h].
  destruct (_ && _); [|reflexivity]. simpl.
  destruct (door_status_eqb _ _); f_equal; lia.
Qed.

Lemma door_loop frame cs :
  forall d,
  let found := map (door_entry frame) (List.filter door_like cs) in
  fold_left (door_step frame) cs d =
  {| open := open d + count is_open found;
     closed := closed d + count (fun i => negb (is_open i)) found;
     door_boxes := door_boxes d ++ found |}.
Proof.
  induction cs as [|c cs IH]; intros d; simpl.
  - destruct d. unfold count. simpl. f_equal; try lia. now rewrite app_nil_r.
  - rewrite IH, door_step_cases. destruct (door_like c) eqn:E.
    + cbn [open closed door_boxes map]. unfold count. cbn [List.filter].
      destruct (is_open (door_entry frame c)); cbn [negb];
        f_equal; cbn [length]; try lia; now rewrite <- app_assoc.
    + reflexivity.
Qed.

Lemma detect_doors_eq frame :
  let found := map (door_entry frame) (List.filter door_like (contours_of frame)) in
  detect_doors frame =
  {| open := count is_open found;
     closed := count (fun i => negb (is_open i)) found;
     door_boxes := found |}.
Proof. unfold detect_doors. now rewrite door_loop. Qed.

Lemma count_split (p : door_info -> bool) l :
  count p l + count (fun i => negb (p i)) l = Z.of_nat (length l).
Proof.
  unfold count. induction l as [|a l IH]; [reflexivity|].
  cbn [List.filter]. destruct (p a); cbn [negb length]; lia.
Qed.

Lemma doors_counted frame :
  open (detect_doors frame) + closed (detect_doors frame)
  = Z.of_nat (length (door_boxes (detect_doors frame))).
Proof. rewrite detect_doors_eq. cbn [open closed door_boxes]. apply count_split. Qed.

Lemma engine_step_cases acc c :
  engine_step acc c = if engine_like c then acc ++ [boundingRect c] else acc.
Proof.
  unfold engine_step, engine_like.
  now destruct (boundingRect c) as [[[x y] w] h].
Qed.

Lemma wagon_step_cases acc c :
  wagon_step acc c = if wagon_like c then acc ++ [boundingRect c] else acc.
Proof.
  unfold wagon_step, wagon_like.
  now destruct (boundingRect c) as [[[x y] w] h].
Qed.

Lemma engine_loop cs :
  forall acc,
  fold_left engine_step cs acc
  = acc ++ map boundingRect (List.filter engine_like cs).
Proof.
  induction cs as [|c cs IH]; intros acc; simpl.
  - now rewrite app_nil_r.
  - rewrite IH, engine_step_cases. destruct (engine_like c); [|reflexivity].
    simpl. now rewrite <- app_assoc.
Qed.

Lemma wagon_loop cs :
  forall acc,
  fold_left wagon_step cs acc
  = acc ++ map boundingRect (List.filter wagon_like cs).
Proof.
  induction cs as [|c cs IH]; intros acc; simpl.
  - now rewrite app_nil_r.
  - rewrite IH, wagon_step_cases. destruct (wagon_like c); [|reflexivity].
    simpl. now rewrite <- app_assoc.
Qed.

Lemma door_like_iff c :
  door_like c = true <->
  let '(x, y, w, h) := boundingRect c in
  (1000 < contourArea c)%Q /\ (contourArea c < 10000)%Q /\
  3 * h < 10 * w /\ w < 3 * h.
Proof.
  unfold door_like. destruct (boundingRect c) as [[[x y] w] h].
  rewrite !andb_true_iff, !Qltb_lt, Z.ltb_lt.
  assert (E : (inject_Z h * (3 # 10) < inject_Z w)%Q <-> 3 * h < 10 * w).
  { unfold Qlt, Qmult, inject_Z. cbn [Qnum Qden].
    change (Z.pos (1 * 10)) with 10. lia. }
  rewrite E, (Z.mul_comm h 3). tauto.
Qed.

Lemma classify_open_iff roi :
  _classify_door_status roi = status_open <->
  size roi <> 0 /\
  (1000 < var (if ndim roi =? 3 then cvtColor roi else roi))%Q.
Proof.
  unfold _classify_door_status.
  destruct (Z.eqb_spec (size roi) 0) as [E|E].
  - split; [discriminate|]. intros [H _]. contradiction.
  - destruct (Qltb 1000 _) eqn:H.
    + apply Qltb_lt in H. tauto.
    + apply Qltb_ge in H. split; [discriminate|].
      intros [_ H']. exfalso. exact (Qlt_not_le _ _ H' H).
Qed.

(** C6, amended: for every frame, the door detector records exactly the
    edge contours, in their order, whose enclosed area (the contour area,
    not the area of the bounding box) lies strictly between 1000 and 10000
    and whose bounding box has width w and height h with w > 0.3 h and
    w < 3 h; each is recorded with its bounding box and contour area, and
    with status open if the crop of the frame to the bounding box is not
    empty and its intensity variance exceeds 1000, and closed otherwise;
    the open and closed counters count these records. *)
Theorem detect_doors_characterised (frame : image) :
  let found :=
    map (door_entry frame) (List.filter door_like (contours_of frame)) in
  door_boxes (detect_doors frame) = found /\
  open (detect_doors frame) = count is_open found /\
  closed (detect_doors frame) = count (fun i => negb (is_open i)) found /\
  (forall c, door_like c = true <->
     let '(x, y, w, h) := boundingRect c in
     (1000 < contourArea c)%Q /\ (contourArea c < 10000)%Q /\
     3 * h < 10 * w /\ w < 3 * h) /\
  (forall c,
     let '(x, y, w, h) := boundingRect c in
     door_bbox (door_entry frame c) = (x, y, w, h) /\
     area (door_entry frame c) = contourArea c /\
     status (door_entry frame c)
     = _classify_door_status (slice frame (y, y + h) (x, x + w))) /\
  (forall roi,
     (_classify_door_status roi = status_open <->
      size roi <> 0 /\
      (1000 < var (if ndim roi =? 3 then cvtColor roi else roi))%Q) /\
     (_classify_door_status roi <> status_open ->
      _classify_door_status roi = status_closed) /\
     (size roi = 0 -> _classify_door_status roi = status_closed)).
Proof.
  cbv zeta. rewrite detect_doors_eq. cbn [open closed door_boxes].
  do 3 (split; [reflexivity|]).
  split; [intros c; apply door_like_iff|].
  split.
  - intros c. unfold door_entry.
    destruct (boundingRect c) as [[[x y] w] h]. auto.
  - intros roi. split; [apply classify_open_iff|]. split.
    + destruct (_classify_door_status roi); [congruence|reflexivity].
    + intros E. unfold _classify_door_status. now rewrite E.
Qed.

Lemma detect_engines_eq frame :
  detect_engines frame
  = map boundingRect (List.filter engine_like (contours_of frame)).
Proof. unfold detect_engines. now rewrite engine_loop. Qed.

Lemma detect_wagons_eq frame :
  detect_wagons frame
  = map boundingRect (List.filter wagon_like (contours_of frame)).
Proof. unfold detect_wagons. now rewrite wagon_loop. Qed.

Lemma draw_touches_only f a : touches_only a (draw f a).
Proof.
  intros s. unfold draw. split; [apply length_alter|].
  intros l Hl. apply list_lookup_alter_ne. congruence.
Qed.

Lemma touches_only_compose a g1 g2 :
  touches_only a g1 -> touches_only a g2 ->
  touches_only a (fun s => g2 (g1 s)).
Proof.
  intros H1 H2 s. destruct (H1 s) as [L1 P1], (H2 (g1 s)) as [L2 P2].
  split; [congruence|]. intros l Hl. rewrite P2, P1; auto.
Qed.

Lemma draw_door_touches_only a d : touches_only a (fun s => draw_door a s d).
Proof.
  unfold draw_door. destruct (door_bbox d) as [[[x y] w] h].
  apply (touches_only_compose a (draw _ a) (draw _ a));
    apply draw_touches_only.
Qed.

Lemma draw_label_touches_only text col a b :
  touches_only a (fun s => draw_label text col a s b).
Proof.
  unfold draw_label. destruct b as [[[x y] w] h].
  apply (touches_only_compose a (draw _ a) (draw _ a));
    apply draw_touches_only.
Qed.

Lemma fold_touches_only {A} a (g : store -> A -> store) (l : list A) :
  (forall x, touches_only a (fun s => g s x)) ->
  touches_only a (fun s => fold_left g l s).
Proof.
  intros Hg. induction l as [|x l IH]; simpl.
  - intros s. split; reflexivity.
  - apply (touches_only_compose a (fun s => g s x) _ (Hg x) IH).
Qed.

(** The annotator allocates one array, the copy, and draws on it alone. *)
Lemma annotate_frame_fresh (s : store) frame img d e w :
  s !! frame = Some img ->
  exists s', _annotate_frame s frame d e w = Ok (s', length s) /\
    length s' = S (length s) /\
    forall l, (l < length s)%nat -> s' !! l = s !! l.
Proof.
  intros Hf. unfold _annotate_frame, copy, deref. rewrite Hf. cbn [bind].
  set (a := length s).
  pose proof (fold_touches_only a (draw_door a) (door_boxes d)
                (draw_door_touches_only a)) as T1.
  pose proof (fold_touches_only a (draw_label "Engine" (255, 0, 0) a) e
                (draw_label_touches_only _ _ a)) as T2.
  pose proof (fold_touches_only a (draw_label "Wagon" (0, 255, 255) a) w
                (draw_label_touches_only _ _ a)) as T3.
  pose proof (touches_only_compose a _ _ (touches_only_compose a _ _ T1 T2) T3)
    as T.
  destruct (T (s ++ [img])) as [L P].
  eexists. split; [reflexivity|]. split.
  - rewrite L, length_app. simpl. lia.
  - intros l Hl. rewrite P by (unfold a; lia). now apply lookup_app_l.
Qed.

(** The loop of [detect_components], started on frames whose arrays are
    [imgs]: every frame is read with its original content, whatever was
    drawn in earlier iterations. *)
Lemma detect_loop_spec (frames : list loc) :
  forall (imgs : list image) (s : store) (i : Z) (c : components),
  Forall2 (fun l img => s !! l = Some img) frames imgs ->
  exists s' c', detect_loop s i frames c = Ok (s', c') /\
    length s' = (length s + length frames)%nat /\
    (forall l, (l < length s)%nat -> s' !! l = s !! l) /\
    doors_open c' =
      doors_open c + sumZ (map (fun img => open (detect_doors img)) imgs) /\
    doors_closed c' =
      doors_closed c + sumZ (map (fun img => closed (detect_doors img)) imgs) /\
    engines c' = engines c ++ concat (map detect_engines imgs) /\
    wagons c' = wagons c ++ concat (map detect_wagons imgs) /\
    map doors (annotations c')
      = map doors (annotations c) ++ map detect_doors imgs /\
    map frame_engines (annotations c')
      = map frame_engines (annotations c) ++ map detect_engines imgs /\
    map frame_wagons (annotations c')
      = map frame_wagons (annotations c) ++ map detect_wagons imgs /\
    map annotated_frame (annotations c')
      = map annotated_frame (annotations c) ++ seq (length s) (length frames).
Proof.
  induction frames as [|frame frames IH]; intros imgs s i c HF.
  - apply Forall2_nil_inv_l in HF as ->. exists s, c. simpl.
    rewrite !app_nil_r, Nat.add_0_r, !Z.add_0_r. repeat split; reflexivity.
  - apply Forall2_cons_inv_l in HF as (img & imgs' & Himg & HF & ->).
    destruct (annotate_frame_fresh s frame img (detect_doors img)
                (detect_engines img) (detect_wagons img) Himg)
      as (s1 & Ha & L1 & P1).
    assert (HF1 : Forall2 (fun l img => s1 !! l = Some img) frames imgs').
    { eapply Forall2_impl; [exact HF|]. intros l x Hl. simpl in Hl.
      rewrite P1; [assumption|]. apply lookup_lt_is_Some. eauto. }
    cbn [detect_loop]. unfold deref at 1. rewrite Himg. cbn [bind].
    rewrite Ha. cbn [bind].
    edestruct (IH imgs' s1 (i + 1)) as
      (s' & c' & E & L & P & Ho & Hc & He & Hw & Hd & Hfe & Hfw & Haf);
      [exact HF1|].
    exists s', c'. split; [exact E|].
    cbn [doors_open doors_closed engines wagons annotations] in *.
    rewrite !map_app in *. cbn [map concat sumZ fold_right length] in *.
    rewrite <- !app_assoc in *. cbn [app] in *.
    repeat split.
    + lia.
    + intros l Hl. rewrite P by lia. now apply P1.
    + unfold sumZ in *. lia.
    + unfold sumZ in *. lia.
    + exact He.
    + exact Hw.
    + exact Hd.
    + exact Hfe.
    + exact Hfw.
    + rewrite Haf, L1. reflexivity.
Qed.

Lemma sumZ_lengths {A} (ls : list (list A)) :
  sumZ (map (fun l => Z.of_nat (length l)) ls) = Z.of_nat (length (concat ls)).
Proof.
  induction ls as [|l ls IH]; [reflexivity|].
  cbn [map sumZ fold_right concat]. rewrite length_app. unfold sumZ in IH. lia.
Qed.

Lemma sumZ_doors (imgs : list image) :
  sumZ (map (fun img => open (detect_doors img)) imgs)
  + sumZ (map (fun img => closed (detect_doors img)) imgs)
  = sumZ (map (fun d => Z.of_nat (length (door_boxes d)))
              (map detect_doors imgs)).
Proof.
  induction imgs as [|img imgs IH]; [reflexivity|].
  cbn [map sumZ fold_right]. rewrite <- doors_counted.
  unfold sumZ in IH. lia.
Qed.

(** C3: for every list of keyframes (references to arrays of the store),
    the aggregate that [detect_components] returns has
    doors_open + doors_closed equal to the sum of the lengths of the
    per-frame door_boxes lists, and its engines and wagons lists are the
    concatenations of the per-frame detection lists, so that the engine
    and wagon counts derived from it are the sums of the per-frame
    detection counts. *)
Theorem pooled_counts (s : store) (frames : list loc) (imgs : list image) :
  Forall2 (fun l img => s !! l = Some img) frames imgs ->
  exists s' c, detect_components s frames = Ok (s', c) /\
    map doors (annotations c) = map detect_doors imgs /\
    doors_open c + doors_closed c
      = sumZ (map (fun a => Z.of_nat (length (door_boxes (doors a))))
                  (annotations c)) /\
    engines c = concat (map frame_engines (annotations c)) /\
    wagons c = concat (map frame_wagons (annotations c)) /\
    total_doors (total_components c) = doors_open c + doors_closed c /\
    total_engines (total_components c)
      = sumZ (map (fun a => Z.of_nat (length (frame_engines a)))
                  (annotations c)) /\
    total_wagons (total_components c)
      = sumZ (map (fun a => Z.of_nat (length (frame_wagons a)))
                  (annotations c)).
Proof.
  intros HF. unfold detect_components.
  destruct (detect_loop_spec frames imgs s 0
              {| doors_open := 0; doors_closed := 0; engines := [];
                 wagons := []; annotations := [] |} HF) as
    (s' & c & E & _ & _ & Ho & Hc & He & Hw & Hd & Hfe & Hfw & _).
  cbn [doors_open doors_closed engines wagons annotations map app] in *.
  exists s', c. split; [exact E|]. split; [exact Hd|].
  assert (Hsum : forall {A B} (f : A -> B) (g : B -> Z) (l : list A),
             sumZ (map (fun a => g (f a)) l) = sumZ (map g (map f l))).
  { intros A B f g l. now rewrite map_map. }
  split.
  { rewrite (Hsum _ _ doors (fun d => Z.of_nat (length (door_boxes d)))), Hd.
    rewrite Ho, Hc, <- sumZ_doors. lia. }
  split; [now rewrite Hfe|]. split; [now rewrite Hfw|].
  unfold total_components. cbn [total_doors total_engines total_wagons].
  split; [reflexivity|]. split.
  - rewrite (Hsum _ _ frame_engines (fun l => Z.of_nat (length l))), Hfe.
    now rewrite sumZ_lengths, He.
  - rewrite (Hsum _ _ frame_wagons (fun l => Z.of_nat (length l))), Hfw.
    now rewrite sumZ_lengths, Hw.
Qed.

(** C10: [detect_components] leaves every array that was in the store
    before the call with the content it had, the input frames among them:
    each annotated frame is a new array, not one of the store before the
    call, and the door counts and the engine and wagon lists are those of
    the detectors run on the original content of the frames. *)
Theorem frames_unchanged (s : store) (frames : list loc) (imgs : list image) :
  Forall2 (fun l img => s !! l = Some img) frames imgs ->
  exists s' c, detect_components s frames = Ok (s', c) /\
    (forall l img, s !! l = Some img -> s' !! l = Some img) /\
    Forall2 (fun l img => s' !! l = Some img) frames imgs /\
    Forall (fun a => (length s <= annotated_frame a < length s')%nat)
           (annotations c) /\
    doors_open c = sumZ (map (fun img => open (detect_doors img)) imgs) /\
    doors_closed c = sumZ (map (fun img => closed (detect_doors img)) imgs) /\
    engines c = concat (map detect_engines imgs) /\
    wagons c = concat (map detect_wagons imgs).
Proof.
  intros HF. unfold detect_components.
  destruct (detect_loop_spec frames imgs s 0
              {| doors_open := 0; doors_closed := 0; engines := [];
                 wagons := []; annotations := [] |} HF) as
    (s' & c & E & L & P & Ho & Hc & He & Hw & _ & _ & _ & Ha).
  cbn [doors_open doors_closed engines wagons annotations map app] in *.
  exists s', c. split; [exact E|].
  assert (Hkeep : forall l img, s !! l = Some img -> s' !! l = Some img).
  { intros l img Hl. rewrite P; [assumption|].
    apply lookup_lt_is_Some. eauto. }
  split; [exact Hkeep|]. split.
  { eapply Forall2_impl; [exact HF|]. intros l img. apply Hkeep. }
  split.
  { apply Forall_forall. intros a Hin. apply list_elem_of_In in Hin.
    apply (in_map annotated_frame) in Hin. rewrite Ha in Hin.
    apply in_seq in Hin. lia. }
  rewrite Ho, Hc, He, Hw. repeat split; lia.
Qed.

End Classifier.

(** C6, as stated, fails: the detector tests the area the contour encloses,
    not the area of its bounding box.  The triangle passes the test on the
    bounding box and is not returned; the band fails it and is returned. *)
Lemma bounding_box_area_not_tested :
  spec_door_candidate triangle = true /\
  door_boxes (detect_doors (synthetic [triangle] 1500)) = [] /\
  spec_door_candidate band = false /\
  map door_bbox (door_boxes (detect_doors (synthetic [band] 1500)))
  = [polygon_boundingRect band].
Proof. repeat split. Qed.

Lemma keyframes_in_store :
  Forall2 (fun l img => two_frames !! l = Some img) keyframes
    [synthetic [door_outline] 1500; synthetic [triangle] 1500;
     synthetic [door_outline] 1500].
Proof. repeat constructor. Defined.

Lemma pooled_counts_witness :
  exists s' c, detect_components two_frames keyframes = Ok (s', c) /\
    doors_open c + doors_closed c
      = sumZ (map (fun a => Z.of_nat (length (door_boxes (doors a))))
                  (annotations c)) /\
    total_wagons (total_components c)
      = sumZ (map (fun a => Z.of_nat (length (frame_wagons a)))
                  (annotations c)).
Proof.
  destruct (pooled_counts (V := scene_vision) two_frames keyframes _
              keyframes_in_store)
    as (s' & c & E & _ & Hd & _ & _ & _ & _ & Hw).
  exists s', c. repeat split; assumption.
Defined.

Lemma frames_unchanged_witness :
  exists s' c, detect_components two_frames keyframes = Ok (s', c) /\
    (forall l img, two_frames !! l = Some img -> s' !! l = Some img).
Proof.
  destruct (frames_unchanged (V := scene_vision) two_frames keyframes _
              keyframes_in_store)
    as (s' & c & E & Hkeep & _).
  exists s', c. split; assumption.
Defined.

(** Scenario C of the specification: one contour enclosing an area of 6000,
    with door proportions, over a crop of variance 1500. *)
Example scenario_C :
  detect_doors (synthetic [door_outline] 1500) =
  {| open := 1; closed := 0;
     door_boxes := [{| door_bbox := (10, 10, 61, 101);
                       status := status_open;
                       area := 12000 # 2 |}] |}.
Proof. reflexivity. Qed.

(** The same contour over a uniform crop is a closed door. *)
Example uniform_crop_closed :
  map status (door_boxes (detect_doors (synthetic [door_outline] 0)))
  = [status_closed].
Proof. reflexivity. Qed.

(** The boxes and labels are on the copies only. *)
Example overlays_on_copies :
  exists s' c, detect_components two_frames keyframes = Ok (s', c) /\
    map overlay s' =
    [[]; [];
     [("rectangle"%string, (10, 10)); ("Door: open"%string, (10, 0));
      ("rectangle"%string, (10, 10)); ("Wagon"%string, (10, 0))];
     [];
     [("rectangle"%string, (10, 10)); ("Door: open"%string, (10, 0));
      ("rectangle"%string, (10, 10)); ("Wagon"%string, (10, 0))]].
Proof. do 2 eexists. split; reflexivity. Qed.

End ClassifierFacts.

(** ** The detectors: what they report and how the two copies differ *)

Module DetectorFacts.
Import ComponentDetector ClassifierFacts.
Module VP := VideoProcessorDetectors.

Section Detectors.
Context {V : Vision}.

Lemma half_lt (w h : Z) : (inject_Z h * (1 # 2) < inject_Z w)%Q <-> h < 2 * w.
Proof.
  unfold Qlt, Qmult, inject_Z. cbn [Qnum Qden].
  change (Z.pos (1 * 2)) with 2. lia.
Qed.

Lemma three_tenths_lt (w h : Z) :
  (inject_Z h * (3 # 10) < inject_Z w)%Q <-> 3 * h < 10 * w.
Proof.
  unfold Qlt, Qmult, inject_Z. cbn [Qnum Qden].
  change (Z.pos (1 * 10)) with 10. lia.
Qed.

Lemma engine_like_iff c :
  engine_like c = true <->
  (15000 < contourArea c)%Q /\
  snd (boundingRect c) < 2 * snd (fst (boundingRect c)).
Proof.
  unfold engine_like. destruct (boundingRect c) as [[[x y] w] h].
  rewrite andb_true_iff, !Qltb_lt, half_lt. reflexivity.
Qed.

Lemma wagon_like_iff c :
  wagon_like c = true <->
  (5000 < contourArea c)%Q /\ (contourArea c < 15000)%Q /\
  3 * snd (boundingRect c) < 10 * snd (fst (boundingRect c)).
Proof.
  unfold wagon_like. destruct (boundingRect c) as [[[x y] w] h].
  rewrite !andb_true_iff, !Qltb_lt, three_tenths_lt. simpl. tauto.
Qed.

Lemma vp_engine_like_iff c :
  VP.engine_like c = true <->
  (10000 < contourArea c)%Q /\
  snd (boundingRect c) < 2 * snd (fst (boundingRect c)).
Proof.
  unfold VP.engine_like. destruct (boundingRect c) as [[[x y] w] h].
  rewrite andb_true_iff, !Qltb_lt, half_lt. reflexivity.
Qed.

Lemma vp_wagon_like_iff c :
  VP.wagon_like c = true <->
  (5000 < contourArea c)%Q /\ (contourArea c < 10000)%Q /\
  3 * snd (boundingRect c) < 10 * snd (fst (boundingRect c)).
Proof.
  unfold VP.wagon_like. destruct (boundingRect c) as [[[x y] w] h].
  rewrite !andb_true_iff, !Qltb_lt, three_tenths_lt. simpl. tauto.
Qed.

Lemma vp_engine_loop cs :
  forall acc,
  fold_left VP.engine_step cs acc
  = acc ++ map boundingRect (List.filter VP.engine_like cs).
Proof.
  induction cs as [|c cs IH]; intros acc; simpl.
  - now rewrite app_nil_r.
  - rewrite IH. unfold VP.engine_step, VP.engine_like at 2.
    destruct (boundingRect c) as [[[x y] w] h] eqn:E.
    destruct (_ && _); [|reflexivity].
    simpl. now rewrite E, <- app_assoc.
Qed.

Lemma vp_wagon_loop cs :
  forall acc,
  fold_left VP.wagon_step cs acc
  = acc ++ map boundingRect (List.filter VP.wagon_like cs).
Proof.
  induction cs as [|c cs IH]; intros acc; simpl.
  - now rewrite app_nil_r.
  - rewrite IH. unfold VP.wagon_step, VP.wagon_like at 2.
    destruct (boundingRect c) as [[[x y] w] h] eqn:E.
    destruct (_ && _); [|reflexivity].
    simpl. now rewrite E, <- app_assoc.
Qed.

Lemma filter_sublist {A B} (f : A -> B) (p q : A -> bool) (l : list A) :
  (forall x, p x = true -> q x = true) ->
  sublist (map f (List.filter p l)) (map f (List.filter q l)).
Proof.
  intros Hpq. induction l as [|x l IH]; simpl; [constructor|].
  destruct (p x) eqn:Hp.
  - rewrite (Hpq x Hp). simpl. now constructor.
  - destruct (q x); simpl; [now constructor|assumption].
Qed.

Lemma filter_disjoint_length {A} (p q : A -> bool) (l : list A) :
  (forall x, p x = true -> q x = false) ->
  (length (List.filter p l) + length (List.filter q l) <= length l)%nat.
Proof.
  intros Hpq. induction l as [|x l IH]; simpl; [lia|].
  destruct (p x) eqn:Hp.
  - rewrite (Hpq x Hp). simpl. lia.
  - destruct (q x); simpl; lia.
Qed.

Lemma in_filtered {A B} (f : A -> B) (p : A -> bool) (l : list A) (x : A) :
  In x l -> p x = true -> In (f x) (map f (List.filter p l)).
Proof. intros Hx Hp. apply in_map, filter_In. now split. Qed.

(** X1: the engine and wagon detectors of component_detector.py return, in
    the order of the contours, the bounding boxes of exactly the edge
    contours that pass their test: an enclosed area above 15000 and
    w > 0.5 h for an engine; an enclosed area strictly between 5000 and 15000
    and w > 0.3 h for a wagon. *)
Theorem engines_wagons_characterised (frame : image) :
  detect_engines frame
    = map boundingRect (List.filter engine_like (contours_of frame)) /\
  detect_wagons frame
    = map boundingRect (List.filter wagon_like (contours_of frame)) /\
  (forall c, engine_like c = true <->
     (15000 < contourArea c)%Q /\ VP.height c < 2 * VP.width c) /\
  (forall c, wagon_like c = true <->
     (5000 < contourArea c)%Q /\ (contourArea c < 15000)%Q /\
     3 * VP.height c < 10 * VP.width c).
Proof.
  split; [apply detect_engines_eq|]. split; [apply detect_wagons_eq|].
  split; intros c; [apply engine_like_iff|apply wagon_like_iff].
Qed.

(** X2: in one frame no contour is reported both as an engine and as a
    wagon, so the engine and wagon detections of a frame together are at
    most as many as its edge contours. *)
Theorem engines_wagons_disjoint (frame : image) :
  (forall c, engine_like c = true -> wagon_like c = false) /\
  (length (detect_engines frame) + length (detect_wagons frame)
   <= length (contours_of frame))%nat.
Proof.
  assert (D : forall c, engine_like c = true -> wagon_like c = false).
  { intros c He. apply engine_like_iff in He as [Ha _].
    destruct (wagon_like c) eqn:Hw; [|reflexivity].
    apply wagon_like_iff in Hw as (_ & Hb & _).
    exfalso. apply (Qlt_irrefl 15000). now apply Qlt_trans with (contourArea c). }
  split; [exact D|].
  rewrite detect_engines_eq, detect_wagons_eq, !length_map.
  now apply filter_disjoint_length.
Qed.

(** X3: a door candidate whose contour encloses more than 5000 is counted
    twice: its bounding box is also among the wagons of the same frame. *)
Theorem large_doors_also_wagons (frame : image) (d : door_info) :
  In d (door_boxes (detect_doors frame)) -> (5000 < area d)%Q ->
  In (door_bbox d) (detect_wagons frame).
Proof.
  intros Hd Ha. rewrite detect_doors_eq in Hd. cbn [door_boxes] in Hd.
  apply in_map_iff in Hd as (c & <- & Hc).
  apply filter_In in Hc as [Hc Hdoor].
  apply door_like_iff in Hdoor.
  unfold door_entry in Ha |- *.
  destruct (boundingRect c) as [[[x y] w] h] eqn:E.
  cbn [area door_bbox] in Ha |- *. destruct Hdoor as (_ & Hlt & Hw & _).
  rewrite detect_wagons_eq, <- E. apply in_filtered; [assumption|].
  apply wagon_like_iff. rewrite E. cbn [fst snd].
  repeat split; [assumption| |assumption].
  apply Qlt_trans with 10000%Q; [assumption|reflexivity].
Qed.

(** X4: the two copies of the detectors disagree in one direction each: on
    the same frame, every engine of component_detector.py is an engine of
    video_processor.py, and every wagon of video_processor.py is a wagon of
    component_detector.py, in the same order. *)
Theorem detector_copies_nested (frame : image) :
  sublist (detect_engines frame) (VP.detect_engines frame) /\
  sublist (VP.detect_wagons frame) (detect_wagons frame).
Proof.
  rewrite detect_engines_eq, detect_wagons_eq.
  unfold VP.detect_engines, VP.detect_wagons.
  rewrite vp_engine_loop, vp_wagon_loop. cbn [app].
  split; apply filter_sublist; intros c H.
  - apply engine_like_iff in H as [Ha Hw]. apply vp_engine_like_iff.
    split; [|assumption].
    apply Qlt_trans with 15000%Q; [reflexivity|assumption].
  - apply vp_wagon_like_iff in H as (Ha & Hb & Hw). apply wagon_like_iff.
    repeat split; [assumption| |assumption].
    apply Qlt_trans with 10000%Q; [assumption|reflexivity].
Qed.

(** X5: a contour of a frame that encloses between 10000 and 15000 and is
    wider than half its height is an engine for the detector of
    video_processor.py and a wagon for the detector of
    component_detector.py, and neither a wagon for the first nor an engine
    for the second. *)
Theorem engine_or_wagon_by_copy (frame : image) (c : contour) :
  In c (contours_of frame) ->
  (10000 < contourArea c)%Q -> (contourArea c < 15000)%Q ->
  0 <= VP.width c -> VP.height c < 2 * VP.width c ->
  In (boundingRect c) (VP.detect_engines frame) /\
  In (boundingRect c) (detect_wagons frame) /\
  VP.wagon_like c = false /\ engine_like c = false.
Proof.
  intros Hc Hlo Hhi Hw0 Hw. unfold VP.width, VP.height in *.
  split.
  { unfold VP.detect_engines. rewrite vp_engine_loop. cbn [app].
    apply in_filtered; [assumption|]. apply vp_engine_like_iff. now split. }
  split.
  { rewrite detect_wagons_eq. apply in_filtered; [assumption|].
    apply wagon_like_iff. repeat split; [|assumption|lia].
    apply Qlt_trans with 10000%Q; [reflexivity|assumption]. }
  split.
  - destruct (VP.wagon_like c) eqn:H; [|reflexivity].
    apply vp_wagon_like_iff in H as (_ & Hb & _).
    exfalso. apply (Qlt_irrefl 10000).
    now apply Qlt_trans with (contourArea c).
  - destruct (engine_like c) eqn:H; [|reflexivity].
    apply engine_like_iff in H as [Ha _].
    exfalso. apply (Qlt_irrefl 15000).
    now apply Qlt_trans with (contourArea c).
Qed.

End Detectors.

Lemma large_doors_also_wagons_witness :
  In (10, 10, 61, 101) (detect_wagons (synthetic [door_outline] 1500)).
Proof.
  apply (large_doors_also_wagons (V := scene_vision)
           (synthetic [door_outline] 1500)
           {| door_bbox := (10, 10, 61, 101); status := status_open;
              area := 12000 # 2 |}).
  - simpl. left. reflexivity.
  - reflexivity.
Defined.

Lemma engine_or_wagon_by_copy_witness :
  In (0, 0, 151, 81)
     (VP.detect_engines (synthetic [VP.coach_outline] 0)) /\
  In (0, 0, 151, 81) (detect_wagons (synthetic [VP.coach_outline] 0)).
Proof.
  destruct (engine_or_wagon_by_copy (V := scene_vision)
              (synthetic [VP.coach_outline] 0) VP.coach_outline)
    as (He & Hw & _).
  - simpl. left. reflexivity.
  - reflexivity.
  - reflexivity.
  - vm_compute. discriminate.
  - reflexivity.
  - split; assumption.
Defined.

End DetectorFacts.

(** ** More on the coach segmenter *)

Module SegmenterMore.
Import VideoProcessor SegmenterFacts.

(** X7: for a valid input the segments all have the same length
    L = total_frames // num_coaches, segment i being [i L, (i + 1) L): the
    [min] with [total_frames] never takes effect, and the frames after the
    last segment are total_frames mod num_coaches, at most 11. *)
Theorem segments_equal_length t f :
  0 < t -> 0 < f ->
  exists l, _detect_coach_boundaries t f = Ok l /\
    let n := Z.of_nat (length l) in
    (forall (i : nat) b, l !! i = Some b ->
       start_frame b = Z.of_nat i * (t / n) /\
       end_frame b = (Z.of_nat i + 1) * (t / n)) /\
    t - n * (t / n) = t mod n /\ 0 <= t mod n <= 11.
Proof.
  intros Ht Hf. eexists. split; [apply boundaries_eq; lia|].
  set (n := num_coaches_of _).
  pose proof (num_coaches_bounds (inject_Z t / inject_Z f)%Q) as Hn. fold n in Hn.
  rewrite length_map, length_py_range by lia. cbv zeta.
  split; [|split].
  - intros i b. rewrite lookup_py_range.
    destruct (decide (i < Z.to_nat n)%nat) as [Hi|]; [|discriminate].
    intros [= <-]. split; [reflexivity|].
    apply segment_end; [lia|lia|assumption].
  - rewrite Z.mod_eq by lia. ring.
  - pose proof (Z.mod_pos_bound t n ltac:(lia)). lia.
Qed.

Lemma segments_equal_length_witness :
  exists l, _detect_coach_boundaries 305 30 = Ok l /\
    let n := Z.of_nat (length l) in
    (forall (i : nat) b, l !! i = Some b ->
       start_frame b = Z.of_nat i * (305 / n) /\
       end_frame b = (Z.of_nat i + 1) * (305 / n)) /\
    305 - n * (305 / n) = 305 mod n /\ 0 <= 305 mod n <= 11.
Proof. apply (segments_equal_length 305 30); lia. Defined.

(** X8: a video of fewer than six frames (an empty one included) still
    gives six segments, all of them the empty range (0, 0), the first
    tagged engine. *)
Theorem short_video_empty_segments t f :
  0 <= t < 6 -> 0 < f ->
  _detect_coach_boundaries t f =
  Ok [(0, 0, engine); (0, 0, wagon); (0, 0, wagon);
      (0, 0, wagon); (0, 0, wagon); (0, 0, wagon)].
Proof.
  intros Ht Hf. rewrite boundaries_eq by lia.
  assert (Hn : num_coaches_of (inject_Z t / inject_Z f)%Q = 6).
  { unfold num_coaches_of.
    rewrite py_int_floor by (apply duration_nonneg; lia).
    rewrite duration_floor by lia.
    rewrite Z.div_small by lia. reflexivity. }
  rewrite Hn. rewrite (Z.div_small t 6) by lia.
  rewrite (map_ext (segment t 0)
             (fun i => (0, 0, if i =? 0 then engine else wagon))).
  - reflexivity.
  - intros i. unfold segment. now rewrite !Z.mul_0_r, Z.min_l by lia.
Qed.

Lemma short_video_empty_segments_witness :
  _detect_coach_boundaries 5 30 =
  Ok [(0, 0, engine); (0, 0, wagon); (0, 0, wagon);
      (0, 0, wagon); (0, 0, wagon); (0, 0, wagon)].
Proof. apply (short_video_empty_segments 5 30); lia. Defined.

End SegmenterMore.

(** ** More on the keyframe selector *)

Module SelectorMore.
Import FrameExtractor SelectorFacts.

Section Selector.
Context {I : Imaging}.

Lemma sampled_sublist si (l : list frame) :
  forall idx, sublist (sampled si idx l) l.
Proof.
  induction l as [|f l IH]; intros idx; simpl; [constructor|].
  destruct (idx mod si =? 0); constructor; apply IH.
Qed.

(** What the loop appends is taken, in order, from the sampled frames. *)
Lemma scan_sublist si τ t rest :
  forall idx ref frames,
  exists more, scan si τ t rest idx ref frames = Ok (frames ++ more) /\
               sublist more (sampled si idx rest).
Proof.
  induction rest as [|f rest IH]; intros idx ref frames.
  - exists []. simpl. rewrite app_nil_r. split; [reflexivity|constructor].
  - simpl sampled. destruct (idx mod si =? 0) eqn:Hs.
    + destruct ref as [r|].
      * destruct (Qltb (score r (cvtColor f)) τ) eqn:E.
        -- rewrite scan_select by assumption.
           destruct (_ >=? t).
           ++ exists [f]. split; [reflexivity|].
              apply sublist_skip, sublist_nil_l.
           ++ destruct (IH (idx + 1) (Some (cvtColor f)) (frames ++ [f]))
                as (more & -> & Hm).
              exists (f :: more). split; [now rewrite <- app_assoc|].
              now apply sublist_skip.
        -- rewrite scan_similar by assumption.
           destruct (IH (idx + 1) (Some r) frames) as (more & -> & Hm).
           exists more. split; [reflexivity|]. now apply sublist_cons.
      * rewrite scan_first by assumption.
        destruct (IH (idx + 1) (Some (cvtColor f)) (frames ++ [f]))
          as (more & -> & Hm).
        exists (f :: more). split; [now rewrite <- app_assoc|].
        now apply sublist_skip.
    + rewrite scan_skip by assumption. apply IH.
Qed.

Lemma score_nonneg (a b : gray) : (0 <= score a b)%Q.
Proof.
  unfold score, similarity_body.
  destruct (if negb _ then _ else _) as [g|]; simpl; [|apply Qle_refl].
  destruct (ssim a g); simpl; [apply py_max_0_nonneg|apply Qle_refl].
Qed.

(** With a threshold that is not positive the loop selects nothing after
    the reference. *)
Lemma scan_no_change si τ t rest :
  (τ <= 0)%Q ->
  forall idx r frames, scan si τ t rest idx (Some r) frames = Ok frames.
Proof.
  intros Hτ. induction rest as [|f rest IH]; intros idx r frames;
    [reflexivity|].
  destruct (idx mod si =? 0) eqn:Hs.
  - rewrite scan_similar; [apply IH|assumption|].
    apply Qltb_ge. apply Qle_trans with 0%Q; [assumption|apply score_nonneg].
  - rewrite scan_skip by assumption. apply IH.
Qed.

(** X11: the keyframes are frames of the clip, in the order of the clip and
    taken at the sampled positions only, and the first keyframe is the first
    frame of the clip. *)
Theorem keyframes_from_stream (v : Video) τ t :
  isOpened v = true -> t <> 0 ->
  exists l, extract_key_frames v τ t = Ok l /\
    sublist l (sampled (Z.max 1 (CAP_PROP_FRAME_COUNT v / (t * 3))) 0
                       (stream v)) /\
    sublist l (stream v) /\ head l = head (stream v).
Proof.
  intros Ho Ht. rewrite keyframes_scan by assumption.
  destruct (scan_sublist (Z.max 1 (CAP_PROP_FRAME_COUNT v / (t * 3))) τ t
              (stream v) 0 None []) as (more & E & Hm).
  exists more. split; [exact E|]. split; [exact Hm|]. split.
  - etrans; [exact Hm|apply sampled_sublist].
  - destruct (stream v) as [|f rest] eqn:Hs.
    + apply sublist_nil_r in Hm. now subst.
    + rewrite scan_first in E by apply sample_interval_pos.
      destruct (scan_sublist (Z.max 1 (CAP_PROP_FRAME_COUNT v / (t * 3))) τ t
                  rest (0 + 1) (Some (cvtColor f)) ([] ++ [f]))
        as (more' & E' & _).
      rewrite E' in E. injection E as <-. reflexivity.
Qed.

(** X12: the selector raises in two cases only: ValueError when the clip
    cannot be opened, and ZeroDivisionError when the clip opens and
    target_frames is 0; no comparison failure is ever raised. *)
Theorem extract_key_frames_raises (v : Video) τ t e :
  extract_key_frames v τ t = Raise e <->
  (isOpened v = false /\ e = ValueError) \/
  (isOpened v = true /\ t = 0 /\ e = ZeroDivisionError).
Proof.
  destruct (isOpened v) eqn:Ho.
  - destruct (Z.eq_dec t 0) as [->|Ht].
    + unfold extract_key_frames, py_floordiv. rewrite Ho. simpl.
      split.
      * intros [= <-]. right. auto.
      * intros [[H _]|(_ & _ & ->)]; [discriminate|reflexivity].
    + rewrite keyframes_scan by assumption.
      destruct (scan_sublist (Z.max 1 (CAP_PROP_FRAME_COUNT v / (t * 3))) τ t
                  (stream v) 0 None []) as (l & E & _).
      rewrite E. split; [discriminate|].
      intros [[H _]|(_ & H & _)]; [discriminate|contradiction].
  - unfold extract_key_frames. rewrite Ho. simpl. split.
    + intros [= <-]. left. auto.
    + intros [[_ ->]|(H & _)]; [reflexivity|discriminate].
Qed.

(** X13: with a similarity threshold of 0 or less only the first frame is
    ever selected, whatever the frames are: a score is never negative. *)
Theorem nonpositive_threshold_selects_first (v : Video) τ t f rest :
  isOpened v = true -> t <> 0 -> stream v = f :: rest -> (τ <= 0)%Q ->
  extract_key_frames v τ t = Ok [f].
Proof.
  intros Ho Ht Hs Hτ. rewrite keyframes_scan by assumption. rewrite Hs.
  rewrite scan_first by apply sample_interval_pos.
  now apply scan_no_change.
Qed.

End Selector.

Lemma keyframes_length_bound_witness :
  Z.of_nat (length [uniform 0; uniform 255]) <= 2.
Proof.
  apply (keyframes_length_bound (I := flat_imaging)
           (clip 3 [uniform 0; uniform 255; uniform 0]) (9 # 10) 2).
  - lia.
  - reflexivity.
Defined.

Lemma keyframes_refine_witness :
  extract_key_frames (clip 3 [uniform 0; uniform 255; uniform 0]) (9 # 10) 2
  = Ok (spec_keyframes (clip 3 [uniform 0; uniform 255; uniform 0])
                       (9 # 10) 2).
Proof.
  apply (keyframes_refine (I := flat_imaging)
           (clip 3 [uniform 0; uniform 255; uniform 0]) (9 # 10) 2).
  - reflexivity.
  - lia.
Defined.

Lemma keyframes_from_stream_witness :
  exists l,
    extract_key_frames (clip 3 [uniform 0; uniform 255; uniform 0]) (9 # 10) 8
    = Ok l /\
    sublist l [uniform 0; uniform 255; uniform 0].
Proof.
  destruct (keyframes_from_stream (I := flat_imaging)
              (clip 3 [uniform 0; uniform 255; uniform 0]) (9 # 10) 8)
    as (l & E & _ & H & _).
  - reflexivity.
  - lia.
  - exists l. split; assumption.
Defined.

Lemma nonpositive_threshold_selects_first_witness :
  extract_key_frames (clip 3 [uniform 0; uniform 255; uniform 0]) 0 8
  = Ok [uniform 0].
Proof.
  apply (nonpositive_threshold_selects_first (I := flat_imaging)
           (clip 3 [uniform 0; uniform 255; uniform 0]) 0 8
           (uniform 0) [uniform 255; uniform 0]).
  - reflexivity.
  - lia.
  - reflexivity.
  - discriminate.
Defined.

End SelectorMore.

(** ** Frame extraction by position *)

Module SamplingFacts.
Import FrameExtractor FrameSampling.

Section Sampling.
Context {I : Imaging}.

Lemma read_loop {A} (cap : Capture) (pos : A -> Z) (l : list A) :
  forall acc,
  fold_left (fun frames x => read_step cap frames (pos x)) l acc
  = acc ++ omap (fun x => read_at cap (pos x)) l.
Proof.
  induction l as [|x l IH]; intros acc; simpl.
  - now rewrite app_nil_r.
  - rewrite IH. unfold read_step.
    destruct (read_at cap (pos x)); [|reflexivity].
    now rewrite <- app_assoc.
Qed.

Lemma length_omap_le {A B} (g : A -> option B) (l : list A) :
  (length (omap g l) <= length l)%nat.
Proof. induction l as [|x l IH]; csimpl; [lia|]. destruct (g x); csimpl; lia. Qed.

Lemma omap_total {A B} (g : A -> option B) (l : list A) :
  Forall (fun x => is_Some (g x)) l ->
  length (omap g l) = length l /\
  forall i : nat, omap g l !! i = l !! i ≫= g.
Proof.
  induction 1 as [|x l [y Hx] _ [IHl IHi]]; [split; [reflexivity|now intros []]|].
  csimpl. rewrite Hx. csimpl. split; [now rewrite IHl|].
  intros [|i]; csimpl; [now rewrite Hx|apply IHi].
Qed.

Lemma omap_map {A B C} (g : B -> option C) (h : A -> B) (l : list A) :
  omap g (map h l) = omap (fun x => g (h x)) l.
Proof.
  induction l as [|x l IH]; [reflexivity|].
  csimpl. now rewrite IH.
Qed.

Lemma uniform_frames_eq (cap : Capture) (n : Z) :
  isOpened (video cap) = true -> n <> 0 ->
  extract_uniform_frames cap n
  = Ok (omap (read_at cap)
             (uniform_positions (CAP_PROP_FRAME_COUNT (video cap)) n)).
Proof.
  intros Ho Hn. unfold extract_uniform_frames, py_floordiv. rewrite Ho.
  destruct (Z.eqb_spec n 0) as [|_]; [contradiction|]. cbn [negb bind].
  rewrite read_loop. cbn [app]. unfold uniform_positions.
  now rewrite omap_map.
Qed.

Lemma in_py_range n i : In i (py_range n) <-> 0 <= i < n.
Proof.
  unfold py_range. rewrite in_map_iff. split.
  - intros (k & <- & Hk). apply in_seq in Hk. lia.
  - intros Hi. exists (Z.to_nat i). split; [lia|]. apply in_seq. lia.
Qed.

(** X14: [extract_uniform_frames] raises in two cases only: ValueError when
    the clip cannot be opened, ZeroDivisionError when it opens and
    num_frames is 0; it returns at most num_frames frames, and none for a
    negative num_frames. *)
Theorem uniform_frames_raises (cap : Capture) (n : Z) :
  (forall e, extract_uniform_frames cap n = Raise e <->
     (isOpened (video cap) = false /\ e = ValueError) \/
     (isOpened (video cap) = true /\ n = 0 /\ e = ZeroDivisionError)) /\
  (forall l, extract_uniform_frames cap n = Ok l ->
     Z.of_nat (length l) <= Z.max 0 n).
Proof.
  destruct (isOpened (video cap)) eqn:Ho.
  - destruct (Z.eq_dec n 0) as [->|Hn].
    + unfold extract_uniform_frames, py_floordiv. rewrite Ho. simpl. split.
      * intros e. split.
        -- intros [= <-]. right. auto.
        -- intros [[H _]|(_ & _ & ->)]; [discriminate|reflexivity].
      * discriminate.
    + rewrite uniform_frames_eq by assumption. split.
      * intros e. split; [discriminate|].
        intros [[H _]|(_ & H & _)]; [discriminate|contradiction].
      * intros l [= <-].
        pose proof (length_omap_le (read_at cap)
                      (uniform_positions (CAP_PROP_FRAME_COUNT (video cap)) n)) as H.
        assert (L : length (uniform_positions
                              (CAP_PROP_FRAME_COUNT (video cap)) n)
                    = Z.to_nat n)
          by (unfold uniform_positions, py_range;
              now rewrite !length_map, length_seq).
        rewrite L in H. lia.
  - unfold extract_uniform_frames. rewrite Ho. simpl. split.
    + intros e. split.
      * intros [= <-]. left. auto.
      * intros [[_ ->]|(H & _)]; [reflexivity|discriminate].
    + discriminate.
Qed.

(** X15: for a clip with a positive frame count and a positive num_frames,
    every position the function seeks to lies inside the clip; and when
    the capture reads frame n of its stream at position n and the stream
    has as many frames as the count says, the result has exactly num_frames
    frames, the i-th being frame i * (total_frames // num_frames). *)
Theorem uniform_frames_in_range (cap : Capture) (n : Z) :
  isOpened (video cap) = true -> 0 < n ->
  0 < CAP_PROP_FRAME_COUNT (video cap) ->
  let total := CAP_PROP_FRAME_COUNT (video cap) in
  Forall (fun p => 0 <= p < total) (uniform_positions total n) /\
  (exact_seek cap -> Z.of_nat (length (stream (video cap))) = total ->
   exists l, extract_uniform_frames cap n = Ok l /\
     Z.of_nat (length l) = n /\
     forall i : nat, (Z.of_nat i < n) ->
       l !! i = stream (video cap) !! Z.to_nat (Z.of_nat i * (total / n))).
Proof.
  intros Ho Hn Ht total.
  assert (Htot : total = CAP_PROP_FRAME_COUNT (video cap)) by reflexivity.
  rewrite <- Htot in Ht. clearbody total.
  assert (Hpos : Forall (fun p => 0 <= p < total) (uniform_positions total n)).
  { apply List.Forall_forall. intros p Hp. unfold uniform_positions in Hp.
    apply in_map_iff in Hp as (i & <- & Hi). apply in_py_range in Hi.
    assert (0 <= total / n) by (apply Z.div_pos; lia).
    assert (n * (total / n) <= total) by (apply Z.mul_div_le; lia).
    split; [nia|].
    assert (i * (total / n) <= (n - 1) * (total / n)) by nia.
    destruct (Z.eq_dec (total / n) 0) as [E|E]; [rewrite E; lia|lia]. }
  split; [exact Hpos|].
  intros Hseek Hlen.
  rewrite uniform_frames_eq by (trivial; lia). rewrite <- Htot.
  assert (Hread : forall p, 0 <= p < total ->
            read_at cap p = stream (video cap) !! Z.to_nat p).
  { intros p Hp. rewrite <- (Hseek (Z.to_nat p)). f_equal. lia. }
  destruct (omap_total (read_at cap) (uniform_positions total n)) as [Hl Hi].
  { eapply Forall_impl; [exact Hpos|]. intros p Hp. simpl in Hp |- *.
    rewrite Hread by assumption. apply lookup_lt_is_Some. lia. }
  eexists. split; [reflexivity|]. split.
  - rewrite Hl. unfold uniform_positions.
    rewrite length_map. apply SegmenterFacts.length_py_range. lia.
  - intros i Hin. rewrite Hi. unfold uniform_positions.
    rewrite SegmenterFacts.lookup_py_range.
    destruct (decide (i < Z.to_nat n)%nat); [|lia]. simpl.
    apply Hread.
    assert (0 <= total / n) by (apply Z.div_pos; lia).
    assert (n * (total / n) <= total) by (apply Z.mul_div_le; lia).
    assert (Z.of_nat i * (total / n) <= (n - 1) * (total / n)) by nia.
    split; [nia|].
    destruct (Z.eq_dec (total / n) 0) as [E|E]; [rewrite E; lia|lia].
Qed.

Lemma omap_const {A B} (o : option B) (l : list A) :
  omap (fun _ => o) l
  = match o with Some y => replicate (length l) y | None => [] end.
Proof.
  induction l as [|x l IH]; csimpl; [now destruct o|].
  rewrite IH. now destruct o.
Qed.

(** X16: when the clip has fewer frames than num_frames, the interval is 0
    and every seek goes to position 0: the result is the first frame
    repeated num_frames times (or nothing, if position 0 cannot be read). *)
Theorem uniform_frames_short_clip (cap : Capture) (n : Z) :
  isOpened (video cap) = true ->
  0 <= CAP_PROP_FRAME_COUNT (video cap) < n ->
  extract_uniform_frames cap n
  = Ok match read_at cap 0 with
       | Some frame => replicate (Z.to_nat n) frame
       | None => []
       end.
Proof.
  intros Ho Ht. rewrite uniform_frames_eq by (trivial; lia).
  unfold uniform_positions. rewrite Z.div_small by lia.
  rewrite omap_map.
  rewrite (list_omap_ext _ (fun _ => read_at cap 0) _ (py_range n)).
  - rewrite omap_const. unfold py_range. now rewrite length_map, length_seq.
  - apply Forall2_same_length_lookup_2; [reflexivity|].
    intros i x y Hx Hy. rewrite Hx in Hy. injection Hy as <-.
    now rewrite Z.mul_0_r.
Qed.

Lemma timestamp_step_raise (cap : Capture) fps ts e :
  fold_left (timestamp_step cap fps) ts (Raise e) = Raise e.
Proof. induction ts as [|t ts IH]; [reflexivity|exact IH]. Qed.

Lemma timestamp_loop (cap : Capture) fps ts :
  forall acc,
  fold_left (timestamp_step cap fps) ts (Ok acc)
  = (ps <- positions fps ts ;; Ok (acc ++ omap (read_at cap) ps)).
Proof.
  induction ts as [|t ts IH]; intros acc; cbn [fold_left positions bind].
  - csimpl. now rewrite app_nil_r.
  - unfold timestamp_step at 2, frame_number_at. cbn [bind].
    destruct (PyFloat.mul_int t fps) as [x|e]; cbn [bind];
      [|apply timestamp_step_raise].
    destruct (PyFloat.int_of_float x) as [p|e]; cbn [bind];
      [|apply timestamp_step_raise].
    rewrite IH. destruct (positions fps ts) as [ps|e]; cbn [bind];
      [|reflexivity].
    csimpl. unfold read_step. destruct (read_at cap p); [|reflexivity].
    now rewrite <- app_assoc.
Qed.

Lemma positions_raise fps ts e :
  positions fps ts = Raise e ->
  exists t, In t ts /\ frame_number_at fps t = Raise e.
Proof.
  induction ts as [|t ts IH]; [discriminate|]. cbn [positions].
  destruct (frame_number_at fps t) as [p|e'] eqn:E; cbn [bind].
  - destruct (positions fps ts) as [ps|e'']; cbn [bind]; [discriminate|].
    intros [= ->]. destruct (IH eq_refl) as (t' & Hin & Ht').
    exists t'. split; [now right|exact Ht'].
  - intros [= ->]. exists t. split; [now left|exact E].
Qed.

Lemma positions_length fps ts ps :
  positions fps ts = Ok ps -> length ps = length ts.
Proof.
  revert ps. induction ts as [|t ts IH]; intros ps; cbn [positions].
  - now intros [= <-].
  - destruct (frame_number_at fps t) as [p|e]; cbn [bind]; [|discriminate].
    destruct (positions fps ts) as [ps'|e]; cbn [bind]; [|discriminate].
    intros [= <-]. cbn. now rewrite (IH ps').
Qed.

(** X17: [extract_frames_at_timestamps] raises ValueError when the clip
    cannot be opened. When it opens, the position of a time stamp is
    int(timestamp * fps) with the product rounded to a double; the function
    raises what the first time stamp without a position raises (a nan or an
    overflow), and otherwise returns, in the order of the time stamps, the
    frame read at the position of each time stamp that can be read, and
    skips the others: the result has as many frames as there are time
    stamps exactly when every one of them can be read. *)
Theorem frames_at_timestamps (cap : Capture)
    (timestamps : list PyFloat.float) :
  let fps := CAP_PROP_FPS cap in
  (isOpened (video cap) = false ->
   extract_frames_at_timestamps cap timestamps = Raise ValueError) /\
  (isOpened (video cap) = true ->
   extract_frames_at_timestamps cap timestamps
   = (ps <- positions fps timestamps ;; Ok (omap (read_at cap) ps))) /\
  (isOpened (video cap) = true ->
   forall e, extract_frames_at_timestamps cap timestamps = Raise e ->
   exists t, In t timestamps /\ frame_number_at fps t = Raise e) /\
  (forall ps, positions fps timestamps = Ok ps ->
     (length (omap (read_at cap) ps) <= length timestamps)%nat /\
     (length (omap (read_at cap) ps) = length timestamps <->
      Forall (fun p => is_Some (read_at cap p)) ps)).
Proof.
  intros fps.
  assert (Heq : isOpened (video cap) = true ->
                extract_frames_at_timestamps cap timestamps
                = (ps <- positions fps timestamps ;;
                   Ok (omap (read_at cap) ps))).
  { intros Ho. unfold extract_frames_at_timestamps. rewrite Ho. cbn [negb].
    fold fps. now rewrite timestamp_loop. }
  split; [|split; [exact Heq|split]].
  - intros Ho. unfold extract_frames_at_timestamps. now rewrite Ho.
  - intros Ho e H. rewrite (Heq Ho) in H.
    destruct (positions fps timestamps) as [ps|e'] eqn:E; [discriminate|].
    injection H as ->. now apply positions_raise.
  - intros ps Hps. rewrite <- (positions_length _ _ _ Hps). clear Hps.
    split; [apply length_omap_le|].
    split; [|apply omap_total].
    induction ps as [|p ps IH]; [constructor|].
    csimpl. destruct (read_at cap p) eqn:E; csimpl.
    + intros [= H]. constructor; [now rewrite E|auto].
    + intros H. pose proof (length_omap_le (read_at cap) ps). lia.
Qed.

End Sampling.

Lemma seekable_exact fps l : exact_seek (seekable fps l).
Proof.
  intros n. simpl. destruct (Z.ltb_spec (Z.of_nat n) 0); [lia|].
  now rewrite Nat2Z.id.
Qed.

Lemma uniform_frames_in_range_witness :
  Forall (fun p => 0 <= p < 10) (uniform_positions 10 3) /\
  exists l,
    extract_uniform_frames
      (seekable 30 (map uniform [0; 1; 2; 3; 4; 5; 6; 7; 8; 9])) 3 = Ok l /\
    Z.of_nat (length l) = 3.
Proof.
  destruct (uniform_frames_in_range (I := flat_imaging)
              (seekable 30 (map uniform [0; 1; 2; 3; 4; 5; 6; 7; 8; 9])) 3)
    as [Hpos Hread].
  - reflexivity.
  - lia.
  - simpl. lia.
  - split; [exact Hpos|].
    destruct (Hread (seekable_exact _ _) eq_refl) as (l & E & Hl & _).
    exists l. split; assumption.
Defined.

Lemma uniform_frames_short_clip_witness :
  extract_uniform_frames (seekable 30 [uniform 1; uniform 2]) 3
  = Ok [uniform 1; uniform 1; uniform 1].
Proof.
  apply (uniform_frames_short_clip (I := flat_imaging)
           (seekable 30 [uniform 1; uniform 2]) 3).
  - reflexivity.
  - simpl. lia.
Defined.

(** Three frames out of ten: positions 0, 3 and 6; the last frame is never
    asked for. *)
Example uniform_three_of_ten :
  extract_uniform_frames
    (seekable 30 (map uniform [0; 1; 2; 3; 4; 5; 6; 7; 8; 9])) 3
  = Ok [uniform 0; uniform 3; uniform 6].
Proof. reflexivity. Qed.

(** Timestamps past the end of the clip are skipped without a trace. *)
Example timestamps_past_the_end :
  extract_frames_at_timestamps
    (seekable 2 (map uniform [0; 1; 2; 3]))
    [PyFloat.zero; PyFloat.half; PyFloat.five; PyFloat.three_halves]
  = Ok [uniform 0; uniform 1; uniform 3].
Proof. reflexivity. Qed.

(** The product is rounded before it is truncated: the double 0.7 is below
    7/10, and yet 0.7 * 30 is the double 21. *)
Example timestamp_product_rounded :
  frame_number_at 30 PyFloat.seven_tenths = Ok 21 /\
  extract_frames_at_timestamps
    (seekable 30 (map uniform (map Z.of_nat (seq 0 30))))
    [PyFloat.seven_tenths]
  = Ok [uniform 21].
Proof. split; reflexivity. Qed.

(** A nan among the time stamps makes the call raise. *)
Example timestamp_nan_raises :
  extract_frames_at_timestamps
    (seekable 30 (map uniform [0; 1; 2; 3]))
    [PyFloat.zero; PyFloat.not_a_number]
  = Raise ValueError.
Proof. reflexivity. Qed.

End SamplingFacts.

(** ** The annotator *)

Module AnnotatorFacts.
Import ComponentDetector ClassifierFacts.

Section Annotator.
Context {V : Vision}.

Lemma draw_fresh (f : image -> image) (s : store) (img : image) :
  draw f (length s) (s ++ [img]) = s ++ [f img].
Proof.
  unfold draw, store in *. rewrite alter_app_r_alt by reflexivity.
  now rewrite Nat.sub_diag.
Qed.

Lemma draw_doors_fresh (ds : list door_info) (s : store) :
  forall img,
  fold_left (draw_door (length s)) ds (s ++ [img])
  = s ++ [fold_left paint_door ds img].
Proof.
  induction ds as [|d ds IH]; intros img; [reflexivity|].
  simpl. rewrite <- IH. f_equal.
  unfold draw_door, paint_door. destruct (door_bbox d) as [[[x y] w] h].
  now rewrite !draw_fresh.
Qed.

Lemma draw_labels_fresh text col (bs : list bbox) (s : store) :
  forall img,
  fold_left (draw_label text col (length s)) bs (s ++ [img])
  = s ++ [fold_left (paint_label text col) bs img].
Proof.
  induction bs as [|b bs IH]; intros img; [reflexivity|].
  simpl. rewrite <- IH. f_equal.
  unfold draw_label, paint_label. destruct b as [[[x y] w] h].
  now rewrite !draw_fresh.
Qed.

Lemma annotate_frame_eq (s : store) (frame : loc) (img : image)
    (d : doors_dict) (e w : list bbox) :
  s !! frame = Some img ->
  _annotate_frame s frame d e w = Ok (s ++ [painted img d e w], length s).
Proof.
  intros Hf. unfold _annotate_frame, copy, deref. rewrite Hf. cbn [bind].
  now rewrite draw_doors_fresh, !draw_labels_fresh.
Qed.

(** X18: the annotator returns a new array, placed after all the arrays of
    the store, that holds the content of the frame with a rectangle and a
    label drawn for every door (green for open, red for closed), then every
    engine, then every wagon; without detections the annotated frame is an
    identical copy. *)
Theorem annotate_frame_content (s : store) (frame : loc) (img : image)
    (d : doors_dict) (e w : list bbox) :
  s !! frame = Some img ->
  _annotate_frame s frame d e w = Ok (s ++ [painted img d e w], length s) /\
  (door_boxes d = [] -> e = [] -> w = [] -> painted img d e w = img).
Proof.
  intros Hf. split.
  - now apply annotate_frame_eq.
  - intros Hd -> ->. unfold painted. now rewrite Hd.
Qed.

(** The loop of [detect_components] appends the annotated copies to the
    store, one per keyframe and in keyframe order. *)
Lemma detect_loop_store (frames : list loc) :
  forall (imgs : list image) (s : store) (i : Z) (c : components),
  Forall2 (fun l img => s !! l = Some img) frames imgs ->
  exists c', detect_loop s i frames c = Ok (s ++ map annotated_copy imgs, c') /\
    map annotated_frame (annotations c')
      = map annotated_frame (annotations c) ++ seq (length s) (length frames) /\
    map frame_index (annotations c')
      = map frame_index (annotations c)
        ++ map (fun k => i + Z.of_nat k) (seq 0 (length frames)).
Proof.
  induction frames as [|frame frames IH]; intros imgs s i c HF.
  - apply Forall2_nil_inv_l in HF as ->. exists c. simpl.
    now rewrite !app_nil_r.
  - apply Forall2_cons_inv_l in HF as (img & imgs' & Himg & HF & ->).
    pose proof (annotate_frame_eq s frame img (detect_doors img)
                  (detect_engines img) (detect_wagons img) Himg) as Ha.
    cbn [detect_loop]. unfold deref at 1. rewrite Himg. cbn [bind].
    rewrite Ha. cbn [bind].
    edestruct (IH imgs' (s ++ [annotated_copy img]) (i + 1)) as (c' & E & Haf & Hfi).
    { eapply Forall2_impl; [exact HF|]. intros l x Hl. simpl in Hl.
      unfold store in *.
      rewrite lookup_app_l; [assumption|]. apply lookup_lt_is_Some. eauto. }
    fold (annotated_copy img). exists c'. split; [|split].
    + rewrite E. cbn [map]. now rewrite <- app_assoc.
    + rewrite Haf. cbn [annotations]. rewrite map_app, <- app_assoc.
      cbn [map annotated_frame app length seq]. rewrite length_app.
      cbn [length]. now rewrite Nat.add_1_r.
    + rewrite Hfi. cbn [annotations]. rewrite map_app, <- app_assoc.
      cbn [map frame_index app length seq]. rewrite Z.add_0_r.
      do 2 f_equal. rewrite <- seq_shift, map_map.
      apply map_ext. intros k. lia.
Qed.

(** X19: [detect_components] appends to the store exactly one annotated
    copy per keyframe, in keyframe order, and annotation number i (counted
    from 0) has frame_index i and refers to the i-th of these copies. *)
Theorem annotations_aligned (s : store) (frames : list loc)
    (imgs : list image) :
  Forall2 (fun l img => s !! l = Some img) frames imgs ->
  exists c, detect_components s frames
            = Ok (s ++ map annotated_copy imgs, c) /\
    length (annotations c) = length frames /\
    forall (k : nat) a, annotations c !! k = Some a ->
      frame_index a = Z.of_nat k /\
      annotated_frame a = (length s + k)%nat /\
      (s ++ map annotated_copy imgs) !! annotated_frame a
      = annotated_copy <$> imgs !! k.
Proof.
  intros HF. unfold detect_components.
  destruct (detect_loop_store frames imgs s 0
              {| doors_open := 0; doors_closed := 0; engines := [];
                 wagons := []; annotations := [] |} HF)
    as (c & E & Haf & Hfi).
  cbn [annotations map app] in Haf, Hfi.
  exists c. split; [exact E|].
  assert (Hlen : length (annotations c) = length frames).
  { rewrite <- (length_map annotated_frame), Haf. apply length_seq. }
  split; [exact Hlen|].
  intros k a Hk.
  assert (Hkl : (k < length frames)%nat).
  { rewrite <- Hlen. apply lookup_lt_is_Some. eauto. }
  assert (H1 : map annotated_frame (annotations c) !! k
               = Some (annotated_frame a)).
  { change (map annotated_frame (annotations c))
      with (annotated_frame <$> annotations c).
    now rewrite list_lookup_fmap, Hk. }
  assert (H2 : map frame_index (annotations c) !! k = Some (frame_index a)).
  { change (map frame_index (annotations c))
      with (frame_index <$> annotations c).
    now rewrite list_lookup_fmap, Hk. }
  rewrite Haf, lookup_seq_lt in H1 by assumption.
  rewrite Hfi in H2.
  change (map (fun k => 0 + Z.of_nat k) (seq 0 (length frames)))
    with ((fun k => 0 + Z.of_nat k) <$> seq 0 (length frames)) in H2.
  rewrite list_lookup_fmap, lookup_seq_lt in H2 by assumption.
  injection H1 as H1. injection H2 as H2.
  rewrite <- H1, <- H2. split; [lia|]. split; [reflexivity|].
  unfold store in *. rewrite lookup_app_r by lia.
  replace (length s + k - length s)%nat with k by lia.
  change (map annotated_copy imgs) with (annotated_copy <$> imgs).
  apply list_lookup_fmap.
Qed.

End Annotator.

Lemma annotate_frame_content_witness :
  _annotate_frame two_frames 1%nat
    {| open := 0; closed := 0; door_boxes := [] |} [] []
  = Ok (two_frames ++ [synthetic [triangle] 1500], 2%nat).
Proof.
  apply (annotate_frame_content (V := scene_vision) two_frames 1%nat
           (synthetic [triangle] 1500)
           {| open := 0; closed := 0; door_boxes := [] |} [] []).
  reflexivity.
Defined.

Lemma annotations_aligned_witness :
  exists c, detect_components two_frames keyframes
            = Ok (two_frames
                  ++ map annotated_copy
                       [synthetic [door_outline] 1500;
                        synthetic [triangle] 1500;
                        synthetic [door_outline] 1500], c) /\
            length (annotations c) = 3%nat.
Proof.
  destruct (annotations_aligned (V := scene_vision) two_frames keyframes _
              keyframes_in_store) as (c & E & Hl & _).
  exists c. split; assumption.
Defined.

End AnnotatorFacts.

(** ** Python strings and dictionaries *)

Module PyFacts.
Import Py.

Lemma to_int_not_nil n :
  Z.to_int n <> Decimal.Pos Decimal.Nil /\
  Z.to_int n <> Decimal.Neg Decimal.Nil.
Proof.
  destruct n; simpl; split; try discriminate; intros [= H];
    now apply Unsigned.to_uint_nonnil in H.
Qed.

Lemma read_py_str n : read_decimal (py_str n) = Some n.
Proof.
  unfold read_decimal, py_str. destruct (to_int_not_nil n).
  rewrite NilZero.isi by assumption. simpl. now rewrite DecimalZ.of_to.
Qed.

Lemma py_str_inj a b : py_str a = py_str b -> a = b.
Proof.
  intros H. apply (f_equal read_decimal) in H.
  rewrite !read_py_str in H. congruence.
Qed.







Lemma length_append (a b : string) :
  String.length (a ++ b) = (String.length a + String.length b)%nat.
Proof. induction a as [|c a IH]; simpl; [reflexivity|now rewrite IH]. Qed.

Lemma append_inj_l (p a b : string) : (p ++ a = p ++ b)%string -> a = b.
Proof. induction p as [|c p IH]; simpl; [auto|]. intros [= H]. auto. Qed.

Lemma append_inj_r (t a b : string) : (a ++ t = b ++ t)%string -> a = b.
Proof.
  revert b. induction a as [|c a IH]; intros [|c' b] H; simpl in H.
  - reflexivity.
  - apply (f_equal String.length) in H. simpl in H.
    rewrite length_append in H. lia.
  - apply (f_equal String.length) in H. simpl in H.
    rewrite length_append in H. lia.
  - injection H as -> H. f_equal. auto.
Qed.

Lemma dict_get_set_eq {V} (d : dict V) k v :
  dict_get (dict_set d k v) k = Some v.
Proof.
  induction d as [|[k' v'] d IH]; simpl.
  - now rewrite String.eqb_refl.
  - destruct (String.eqb k' k) eqn:E; simpl; rewrite E; [reflexivity|exact IH].
Qed.

Lemma dict_get_set_ne {V} (d : dict V) k k' v :
  k <> k' -> dict_get (dict_set d k v) k' = dict_get d k'.
Proof.
  intros Hne. induction d as [|[k0 v0] d IH]; simpl.
  - destruct (String.eqb_spec k k'); [contradiction|reflexivity].
  - destruct (String.eqb_spec k0 k) as [->|]; simpl.
    + destruct (String.eqb_spec k k'); [contradiction|reflexivity].
    + now rewrite IH.
Qed.

(** Setting a key that is not in the dictionary appends the item. *)
Lemma dict_set_new {V} (d : dict V) k v :
  ~ In k (keys d) -> dict_set d k v = d ++ [(k, v)].
Proof.
  induction d as [|[k' v'] d IH]; simpl; [reflexivity|].
  intros Hk. destruct (String.eqb_spec k' k) as [->|]; [tauto|].
  rewrite IH; tauto.
Qed.

Lemma py_enumerate_cons {A} (start : Z) (a : A) (l : list A) :
  py_enumerate start (a :: l) = (start, a) :: py_enumerate (start + 1) l.
Proof.
  unfold py_enumerate. cbn [length seq map combine].
  rewrite Z.add_0_r. f_equal. f_equal.
  rewrite <- seq_shift, map_map. apply map_ext. intros k. lia.
Qed.



Lemma lookup_enumerate {A} (l : list A) :
  forall (start : Z) (k : nat),
  py_enumerate start l !! k
  = option_map (fun a => (start + Z.of_nat k, a)) (l !! k).
Proof.
  induction l as [|b l IH]; intros start k; [now destruct k|].
  rewrite py_enumerate_cons. destruct k as [|k]; cbn.
  - now rewrite Z.add_0_r.
  - rewrite IH. destruct (l !! k); cbn; [|reflexivity].
    do 2 f_equal. lia.
Qed.

Lemma lookup_map {A B} (f : A -> B) (l : list A) :
  forall k : nat, map f l !! k = option_map f (l !! k).
Proof.
  induction l as [|a l IH]; intros [|k]; cbn; [reflexivity..|apply IH].
Qed.

Lemma length_enumerate {A} (start : Z) (l : list A) :
  length (py_enumerate start l) = length l.
Proof.
  revert start. induction l as [|a l IH]; intros start; [reflexivity|].
  rewrite py_enumerate_cons. cbn. now rewrite IH.
Qed.

End PyFacts.

(** ** Saving frames *)

Module SavingFacts.
Import FrameExtractor Py PyFacts FrameSaving.

Section Saving.
Context {I : Imaging} {D : Disk}.


Lemma save_step_raise dir prefix xs e :
  fold_left (save_step dir prefix) xs (Raise e) = Raise e.
Proof. induction xs as [|x xs IH]; [reflexivity|exact IH]. Qed.

Lemma save_step_eq dir prefix fs acc i (f : frame) :
  save_step dir prefix (Ok (fs, acc)) (i, f)
  = (written <- cv2_imwrite (path_of dir prefix i) f ;;
     Ok (if written : bool then dict_set fs (path_of dir prefix i) f else fs,
         acc ++ [path_of dir prefix i])).
Proof.
  unfold save_step, imwrite, path_of. cbn [bind].
  now destruct (cv2_imwrite _ f).
Qed.


Lemma save_loop_raises dir prefix (xs : list (Z * frame)) :
  forall fs acc e,
  fold_left (save_step dir prefix) xs (Ok (fs, acc)) = Raise e ->
  exists x, In x xs /\
            cv2_imwrite (path_of dir prefix (fst x)) (snd x) = Raise e.
Proof.
  induction xs as [|[i f] xs IH]; intros fs acc e H; [discriminate|].
  cbn [fold_left] in H. rewrite save_step_eq in H.
  destruct (cv2_imwrite (path_of dir prefix i) f) as [b|e'] eqn:Hb;
    cbn [bind] in H.
  - apply IH in H as (x & Hx & Hx'). exists x. split; [now right|exact Hx'].
  - rewrite save_step_raise in H. injection H as <-.
    exists (i, f). split; [now left|exact Hb].
Qed.



Lemma enumerate_elem {A} (l : list A) (start : Z) (x : Z * A) :
  In x (py_enumerate start l) ->
  exists k : nat, fst x = start + Z.of_nat k /\ l !! k = Some (snd x).
Proof.
  intros Hx. apply list_elem_of_In, list_elem_of_lookup in Hx as [k Hk].
  rewrite lookup_enumerate in Hk. exists k.
  destruct (l !! k) as [a|]; [|discriminate].
  injection Hk as <-. split; reflexivity.
Qed.




(** X22: [save_frames] raises only what making the directory raises or
    what the write of one of the frames, at its own path, raises: a write
    that returns without writing raises nothing. *)
Theorem save_frames_raises fs frames dir prefix e :
  save_frames fs frames dir prefix = Raise e ->
  mkdir dir = Raise e \/
  exists (k : nat) (frame : frame),
    frames !! k = Some frame /\
    cv2_imwrite (path_of dir prefix (Z.of_nat k + 1)) frame = Raise e.
Proof.
  unfold save_frames. destruct (mkdir dir) as [[]|e'] eqn:Hm; cbn [bind].
  - intros H. right. apply save_loop_raises in H as (x & Hx & Hr).
    apply enumerate_elem in Hx as (k & Hk & Hf). exists k, (snd x).
    split; [exact Hf|]. now rewrite Z.add_comm, <- Hk.
  - intros [= ->]. now left.
Qed.

End Saving.




Lemma save_frames_raises_witness :
  mkdir (Disk := locked_disk) "out" = Raise LibraryError \/
  exists (k : nat) (f : frame (Imaging := flat_imaging)),
    [uniform 1] !! k = Some f /\
    cv2_imwrite (Disk := locked_disk)
      (path_of (D := locked_disk) "out" "frame" (Z.of_nat k + 1)) f
    = Raise LibraryError.
Proof.
  apply (save_frames_raises (D := locked_disk) [] [uniform 1] "out" "frame").
  reflexivity.
Defined.

End SavingFacts.

(** ** Coach folders and the monitoring report *)

Module ReportFacts.
Import Py PyFacts CCTVMonitoringReport.
Module FM := FolderManager.

Lemma split_on_cons c s : exists h t, split_on c s = h :: t.
Proof.
  induction s as [|a s (h & t & E)]; simpl; [eauto|].
  destruct (Ascii.eqb a c); [eauto|]. rewrite E. eauto.
Qed.

Lemma split_no_sep c s : contains c s = false -> split_on c s = [s].
Proof.
  induction s as [|a s IH]; simpl; [reflexivity|]. intros H.
  apply orb_false_iff in H as [H1 H2]. now rewrite H1, IH.
Qed.

Lemma split_app c a b :
  contains c a = false ->
  split_on c (a ++ String c b) = a :: split_on c b.
Proof.
  induction a as [|x a IH]; simpl; intros H.
  - now rewrite Ascii.eqb_refl.
  - apply orb_false_iff in H as [H1 H2]. now rewrite H1, IH.
Qed.

Lemma contains_split c s :
  contains c s = true ->
  exists a r, s = (a ++ String c r)%string /\ contains c a = false.
Proof.
  induction s as [|x s IH]; simpl; [discriminate|].
  destruct (Ascii.eqb_spec x c) as [->|Hne]; simpl.
  - intros _. exists EmptyString, s. split; reflexivity.
  - intros H. destruct (IH H) as (a & r & -> & Ha).
    exists (String x a), r. split; [reflexivity|]. simpl. rewrite Ha.
    now destruct (Ascii.eqb_spec x c).
Qed.

Lemma contains_app c a b :
  contains c (a ++ b) = contains c a || contains c b.
Proof.
  induction a as [|x a IH]; simpl; [reflexivity|].
  now rewrite IH, orb_assoc.
Qed.

Lemma head_split_length c r x :
  exists h t, split_on c (r ++ String c x) = h :: t /\
              (String.length h <= String.length r)%nat.
Proof.
  induction r as [|y r (h & t & E & Hl)]; simpl.
  - rewrite Ascii.eqb_refl. eexists _, _. split; [reflexivity|simpl; lia].
  - destruct (Ascii.eqb y c).
    + eexists _, _. split; [reflexivity|simpl; lia].
    + rewrite E. eexists _, _. split; [reflexivity|simpl; lia].
Qed.

Lemma uint_no_underscore d :
  contains "_" (NilEmpty.string_of_uint d) = false.
Proof. induction d; simpl; auto. Qed.

Lemma py_str_no_underscore n : contains "_" (py_str n) = false.
Proof.
  unfold py_str. destruct (Z.to_int n) as [d|d]; simpl;
    unfold NilZero.string_of_uint; destruct d; simpl;
    try reflexivity; apply uint_no_underscore.
Qed.

Lemma folder_name_parts t c :
  contains "_" t = false ->
  split_on "_" (FM.coach_folder_name t c) = [t; py_str c].
Proof.
  intros Ht. unfold FM.coach_folder_name. simpl.
  rewrite (split_app "_" t (py_str c) Ht).
  now rewrite split_no_sep by apply py_str_no_underscore.
Qed.

Section Collect.
Variable int : string -> option Z.

Lemma collect_folder_parts (f : FM.folder) a b rest :
  split_on "_" (FM.name f) = a :: b :: rest ->
  collect_folder int f
  = match dict_get (FM.files f) (a ++ "_" ++ b ++ "_components.json") with
    | Some component_data =>
      match int b with
      | Some n =>
        inr (Some
          {| train_number := a;
             coach_number := n;
             doors_open := default 0 (FM.doors_open component_data);
             doors_closed := default 0 (FM.doors_closed component_data);
             engines :=
               Z.of_nat (length (default [] (FM.engines component_data)));
             wagons :=
               Z.of_nat (length (default [] (FM.wagons component_data))) |})
      | None => inl IntValueError
      end
    | None => inr None
    end.
Proof. intros E. unfold collect_folder. rewrite E. reflexivity. Qed.

Lemma two_parts name :
  contains "_" name = true ->
  exists a b rest, split_on "_" name = a :: b :: rest.
Proof.
  intros H. destruct (contains_split _ _ H) as (a & r & -> & Ha).
  rewrite (split_app _ a r Ha).
  destruct (split_on_cons "_" r) as (b & rest & ->). eauto.
Qed.

Lemma collect_folder_written x :
  (forall n, int (py_str n) = Some n) ->
  contains "_" (fst (fst x)) = false ->
  collect_folder int (written x) = inr (Some (entry_of x)).
Proof.
  destruct x as [[t n] c]. cbn [fst]. intros Hint Ht.
  rewrite (collect_folder_parts (written (t, n, c)) t (py_str n) []).
  - cbn [written FM.coach_folder FM._save_component_data FM.files dict_set].
    unfold FM.components_filename. cbn [dict_get].
    rewrite String.eqb_refl, Hint. reflexivity.
  - now apply folder_name_parts.
Qed.

Lemma written_kept x :
  FM.is_dir (written x) && contains "_" (FM.name (written x)) = true.
Proof.
  destruct x as [[t n] c]. cbn. unfold FM.coach_folder_name.
  rewrite contains_app. cbn. now rewrite orb_true_r.
Qed.

Lemma collect_loop_written cs :
  (forall n, int (py_str n) = Some n) ->
  Forall (fun x => contains "_" (fst (fst x)) = false) cs ->
  forall tr o c,
  collect_loop int (map written cs) (tr, o, c)
  = inr (tr ++ map entry_of cs,
         o + sumZ (map (fun x => doors_open (entry_of x)) cs),
         c + sumZ (map (fun x => doors_closed (entry_of x)) cs)).
Proof.
  intros Hint Hcs. induction Hcs as [|x cs Hx _ IH]; intros tr o c.
  - cbn. now rewrite app_nil_r, !Z.add_0_r.
  - cbn [map collect_loop]. rewrite (collect_folder_written x Hint Hx).
    cbn [and_then]. rewrite IH. cbn [sumZ fold_right map].
    now rewrite <- app_assoc, !Z.add_assoc.
Qed.

Lemma collect_loop_inv fs :
  forall tr o c tr' o' c',
  collect_loop int fs (tr, o, c) = inr (tr', o', c') ->
  exists new, tr' = tr ++ new /\
              o' = o + sumZ (map doors_open new) /\
              c' = c + sumZ (map doors_closed new).
Proof.
  induction fs as [|f fs IH]; intros tr o c tr' o' c' H.
  - injection H as <- <- <-. exists []. cbn. now rewrite app_nil_r, !Z.add_0_r.
  - cbn [collect_loop] in H.
    destruct (collect_folder int f) as [e|[td|]]; cbn [and_then] in H;
      [discriminate| |now apply IH].
    apply IH in H as (new & -> & -> & ->). exists (td :: new).
    rewrite <- app_assoc. cbn [map sumZ fold_right app].
    now rewrite !Z.add_assoc.
Qed.

Lemma collect_loop_raises fs :
  Forall (fun f => contains "_" (FM.name f) = true) fs ->
  forall st e,
  collect_loop int fs st = inl e ->
  e = IntValueError /\
  exists f a b rest,
    In f fs /\ split_on "_" (FM.name f) = a :: b :: rest /\
    int b = None /\
    dict_get (FM.files f) (a ++ "_" ++ b ++ "_components.json") <> None.
Proof.
  intros Hfs. induction Hfs as [|f fs Hf _ IH]; intros st e H;
    [discriminate|].
  cbn [collect_loop] in H.
  destruct (two_parts _ Hf) as (a & b & rest & E).
  rewrite (collect_folder_parts f a b rest E) in H.
  destruct (dict_get (FM.files f) _) as [cd|] eqn:Ecd.
  - destruct (int b) as [n|] eqn:Eb; cbn [and_then] in H.
    + destruct st as [[tr o] c].
      apply IH in H as (-> & f' & a' & b' & rest' & Hin & H').
      split; [reflexivity|]. exists f', a', b', rest'. split; [now right|].
      exact H'.
    + injection H as <-. split; [reflexivity|].
      exists f, a, b, rest. repeat split; [now left|assumption..|].
      now rewrite Ecd.
  - cbn [and_then] in H.
    apply IH in H as (-> & f' & a' & b' & rest' & Hin & H').
    split; [reflexivity|]. exists f', a', b', rest'. split; [now right|].
    exact H'.
Qed.

End Collect.

(** *** Grouping by train *)

Lemma keys_set_present {V} (d : dict V) k v v0 :
  dict_get d k = Some v0 -> keys (dict_set d k v) = keys d.
Proof.
  induction d as [|[k' v'] d IH]; simpl; [discriminate|].
  destruct (String.eqb_spec k' k); simpl; [reflexivity|].
  intros H. now rewrite IH.
Qed.

Lemma keys_set_absent {V} (d : dict V) k v :
  dict_get d k = None -> keys (dict_set d k v) = keys d ++ [k].
Proof.
  induction d as [|[k' v'] d IH]; simpl; [reflexivity|].
  destruct (String.eqb_spec k' k); simpl; [discriminate|].
  intros H. now rewrite IH.
Qed.

Lemma dict_get_keys {V} (d : dict V) k :
  In k (keys d) <-> dict_get d k <> None.
Proof.
  induction d as [|[k' v'] d IH]; simpl; [tauto|].
  destruct (String.eqb_spec k' k); [intuition congruence|].
  rewrite IH. intuition congruence.
Qed.

Lemma group_step_grouped g l t :
  grouped g l -> grouped (group_step g t) (l ++ [t]).
Proof.
  intros [Hnd Hg]. unfold group_step.
  destruct (dict_get g (train_number t)) as [fl|] eqn:E.
  - rewrite E. cbn [default from_option id]. split.
    + now rewrite (keys_set_present _ _ _ _ E).
    + intros k. rewrite List.filter_app. cbn [List.filter]. unfold of_train at 2.
      destruct (String.eqb_spec (train_number t) k) as [<-|Hne].
      * rewrite dict_get_set_eq. specialize (Hg (train_number t)).
        rewrite E in Hg.
        destruct (List.filter _ l); [discriminate|].
        injection Hg as ->. reflexivity.
      * rewrite dict_get_set_ne by assumption. rewrite app_nil_r. apply Hg.
  - rewrite dict_get_set_eq. cbn [default from_option id app]. split.
    + rewrite (keys_set_present _ _ _ [] (dict_get_set_eq _ _ _)).
      rewrite (keys_set_absent _ _ _ E).
      apply List.NoDup_app; [assumption| |].
      * constructor; [intros []|constructor].
      * intros x Hx [<-|[]]. now apply dict_get_keys in Hx.
    + intros k. rewrite List.filter_app. cbn [List.filter]. unfold of_train at 2.
      destruct (String.eqb_spec (train_number t) k) as [<-|Hne].
      * rewrite dict_get_set_eq. specialize (Hg (train_number t)).
        rewrite E in Hg.
        destruct (List.filter _ l); [reflexivity|discriminate].
      * rewrite !dict_get_set_ne by assumption. rewrite app_nil_r. apply Hg.
Qed.

Lemma groups_grouped l :
  forall g l0, grouped g l0 -> grouped (fold_left group_step l g) (l0 ++ l).
Proof.
  induction l as [|t l IH]; intros g l0 H; cbn [fold_left].
  - now rewrite app_nil_r.
  - replace (l0 ++ t :: l) with ((l0 ++ [t]) ++ l) by now rewrite <- app_assoc.
    now apply IH, group_step_grouped.
Qed.

Section Report.
Variable int : string -> option Z.

(** X23: the report finds what the folder manager wrote. When no train
    number holds an underscore, collecting from the coach folders gives one
    entry per coach, in the order of the folders, with the train number, the
    coach number, the door counts and the numbers of engines and wagons of
    that coach; nothing is raised. *)
Theorem written_coaches_collected
    (cs : list (string * Z * ComponentDetector.components)) :
  (forall n, int (py_str n) = Some n) ->
  Forall (fun x => contains "_" (fst (fst x)) = false) cs ->
  exists d,
    _collect_cctv_data int (map written cs) = inr d /\
    trains d = map entry_of cs /\
    total_coaches d = Z.of_nat (length cs) /\
    total_doors_open d
    = sumZ (map (fun x => ComponentDetector.doors_open (snd x)) cs) /\
    total_doors_closed d
    = sumZ (map (fun x => ComponentDetector.doors_closed (snd x)) cs).
Proof.
  intros Hint Hcs. unfold _collect_cctv_data.
  rewrite List.forallb_filter_id.
  2:{ apply forallb_forall. intros f Hf. apply in_map_iff in Hf as (x & <- & _).
      apply written_kept. }
  rewrite (collect_loop_written int cs Hint Hcs). cbn [and_then].
  eexists. split; [reflexivity|]. cbn [trains total_coaches total_doors_open
    total_doors_closed app]. rewrite length_map, !Z.add_0_l.
  repeat split; f_equal; apply map_ext; now intros [[t n] c].
Qed.

(** X24: a train number that holds an underscore is lost to the report. The
    component file looked for in the folder of such a coach is not the one
    the folder manager wrote there, so the coach is left out without any
    error. *)
Theorem underscore_train_not_collected (t : string) (n : Z)
    (c : ComponentDetector.components) :
  contains "_" t = true ->
  exists q d,
    component_file (FM.coach_folder_name t n) = inr q /\
    q <> FM.components_filename t n /\
    collect_folder int (FM.coach_folder c t n) = inr None /\
    _collect_cctv_data int [FM.coach_folder c t n] = inr d /\
    trains d = [] /\ total_coaches d = 0.
Proof.
  intros Ht. destruct (contains_split _ _ Ht) as (a & r & -> & Ha).
  destruct (head_split_length "_" r (py_str n)) as (h & tl & Eh & Hl).
  assert (Eparts : split_on "_" (FM.coach_folder_name (a ++ String "_" r) n)
                   = a :: h :: tl).
  { unfold FM.coach_folder_name.
    replace ((a ++ String "_" r) ++ "_" ++ py_str n)%string
      with (a ++ String "_" (r ++ String "_" (py_str n)))%string.
    - now rewrite (split_app "_" a _ Ha), Eh.
    - clear. induction a as [|x a IH]; simpl; [reflexivity|].
      now rewrite IH. }
  assert (Hne : (a ++ "_" ++ h ++ "_components.json")%string
                <> FM.components_filename (a ++ String "_" r) n).
  { intros Heq. apply (f_equal String.length) in Heq.
    unfold FM.components_filename in Heq.
    rewrite !length_append in Heq. simpl in Heq. lia. }
  assert (Ef : collect_folder int (FM.coach_folder c (a ++ String "_" r) n)
               = inr None).
  { rewrite (collect_folder_parts int
               (FM.coach_folder c (a ++ String "_" r) n) a h tl Eparts).
    cbn [FM.coach_folder FM._save_component_data FM.files dict_set dict_get].
    destruct (String.eqb_spec
                (FM.components_filename (a ++ String "_" r) n)
                (a ++ "_" ++ h ++ "_components.json")) as [E|_];
      [now symmetry in E|reflexivity]. }
  eexists _, _. split; [|split; [exact Hne|split; [exact Ef|]]].
  - unfold component_file. rewrite Eparts. reflexivity.
  - unfold _collect_cctv_data. cbn [List.filter].
    change (FM.is_dir (FM.coach_folder c (a ++ String "_" r) n)) with true.
    cbn [andb]. unfold FM.coach_folder at 1. cbn [FM._save_component_data FM.name].
    unfold FM.coach_folder_name at 1. rewrite contains_app, Ht. cbn [orb].
    cbn [collect_loop]. fold (FM.coach_folder c (a ++ String "_" r) n).
    rewrite Ef. cbn. repeat split.
Qed.

(** X25: the totals and the groups of the collected data agree with its
    list of entries. The coach total is the number of entries; the two door
    totals are the sums over the entries; the train total is the number of
    groups; there is one group per train number met, and the group of a
    train holds exactly the entries of that train, in the order of the
    list. *)
Theorem collected_totals (processed : list FM.folder) (d : cctv_data) :
  _collect_cctv_data int processed = inr d ->
  total_coaches d = Z.of_nat (length (trains d)) /\
  total_doors_open d = sumZ (map doors_open (trains d)) /\
  total_doors_closed d = sumZ (map doors_closed (trains d)) /\
  total_trains d = Z.of_nat (length (keys (train_groups d))) /\
  List.NoDup (keys (train_groups d)) /\
  (forall k, In k (keys (train_groups d))
             <-> exists t, In t (trains d) /\ train_number t = k) /\
  (forall k l, dict_get (train_groups d) k = Some l ->
               l = List.filter (of_train k) (trains d)).
Proof.
  unfold _collect_cctv_data. intros H.
  destruct (collect_loop int _ _) as [e|[[tr o] c]] eqn:E; [discriminate|].
  cbn [and_then] in H. injection H as <-.
  cbn [trains total_coaches total_doors_open total_doors_closed total_trains
       train_groups].
  apply collect_loop_inv in E as (new & -> & -> & ->). cbn [app].
  destruct (groups_grouped new [] []) as [Hnd Hg].
  { split; [constructor|reflexivity]. }
  cbn [app] in Hg.
  repeat split; try reflexivity.
  - unfold keys. now rewrite length_map.
  - exact Hnd.
  - intros Hk. apply dict_get_keys in Hk. rewrite Hg in Hk.
    destruct (List.filter (of_train k) new) as [|t fl] eqn:Ef; [congruence|].
    assert (Ht : In t (List.filter (of_train k) new)) by (rewrite Ef; now left).
    apply filter_In in Ht as [Ht Hk']. exists t. split; [exact Ht|].
    now apply String.eqb_eq.
  - intros (t & Ht & <-). apply dict_get_keys. rewrite Hg.
    assert (Hin : In t (List.filter (of_train (train_number t)) new)).
    { apply filter_In. split; [exact Ht|]. apply String.eqb_refl. }
    now destruct (List.filter _ new).
  - intros k l Hl. rewrite Hg in Hl.
    destruct (List.filter (of_train k) new); congruence.
Qed.

(** X26: collecting the data raises nothing but the [ValueError] of [int],
    and only for a directory whose name holds an underscore, whose second
    part is no integer, and which holds a file named after its first two
    parts; the index into the parts of a name is never out of range. *)
Theorem collect_raises (processed : list FM.folder) (e : error) :
  _collect_cctv_data int processed = inl e ->
  e = IntValueError /\
  exists f a b rest,
    In f processed /\ FM.is_dir f = true /\
    split_on "_" (FM.name f) = a :: b :: rest /\
    int b = None /\
    dict_get (FM.files f) (a ++ "_" ++ b ++ "_components.json") <> None.
Proof.
  unfold _collect_cctv_data. intros H.
  destruct (collect_loop int _ _) as [e'|[[tr o] c]] eqn:E;
    [|discriminate].
  injection H as ->. apply collect_loop_raises in E.
  - destruct E as (-> & f & a & b & rest & Hin & Hparts & Hb & Hfile).
    apply filter_In in Hin as [Hin Hkeep].
    apply andb_true_iff in Hkeep as [Hdir _].
    split; [reflexivity|]. now exists f, a, b, rest.
  - apply List.Forall_forall. intros f Hf.
    apply filter_In in Hf as [_ Hkeep].
    now apply andb_true_iff in Hkeep as [_ Hc].
Qed.

End Report.

Lemma decimal_int_str n : decimal_int (py_str n) = Some n.
Proof. apply read_py_str. Qed.

Lemma written_coaches_collected_witness :
  exists d,
    _collect_cctv_data decimal_int
      (map written [("12309"%string, 1, some_components);
                    ("12309"%string, 2, some_components)]) = inr d /\
    trains d = map entry_of [("12309"%string, 1, some_components);
                             ("12309"%string, 2, some_components)] /\
    total_coaches d = 2 /\ total_doors_open d = 2 /\
    total_doors_closed d = 4.
Proof.
  apply (written_coaches_collected decimal_int
           [("12309"%string, 1, some_components);
            ("12309"%string, 2, some_components)] decimal_int_str).
  repeat constructor.
Defined.

Lemma underscore_train_not_collected_witness :
  exists q d,
    component_file (FM.coach_folder_name "train_video" 3) = inr q /\
    q <> FM.components_filename "train_video" 3 /\
    collect_folder decimal_int (FM.coach_folder some_components "train_video" 3)
    = inr None /\
    _collect_cctv_data decimal_int
      [FM.coach_folder some_components "train_video" 3] = inr d /\
    trains d = [] /\ total_coaches d = 0.
Proof.
  apply (underscore_train_not_collected decimal_int "train_video" 3
           some_components).
  reflexivity.
Defined.

Lemma collected_totals_witness :
  exists d,
    _collect_cctv_data decimal_int
      (map written [("12309"%string, 1, some_components);
                    ("22222"%string, 1, some_components);
                    ("12309"%string, 2, some_components)]) = inr d /\
    total_coaches d = Z.of_nat (length (trains d)) /\
    total_doors_open d = sumZ (map doors_open (trains d)) /\
    total_doors_closed d = sumZ (map doors_closed (trains d)) /\
    total_trains d = Z.of_nat (length (keys (train_groups d))) /\
    List.NoDup (keys (train_groups d)) /\
    (forall k, In k (keys (train_groups d))
               <-> exists t, In t (trains d) /\ train_number t = k) /\
    (forall k l, dict_get (train_groups d) k = Some l ->
                 l = List.filter (of_train k) (trains d)).
Proof.
  destruct (_collect_cctv_data decimal_int
              (map written [("12309"%string, 1, some_components);
                            ("22222"%string, 1, some_components);
                            ("12309"%string, 2, some_components)]))
    as [e|d] eqn:E; [vm_compute in E; discriminate|].
  exists d. split; [reflexivity|].
  exact (collected_totals decimal_int _ d E).
Defined.

Lemma collect_raises_witness :
  IntValueError = IntValueError /\
  exists f a b rest,
    In f [stray_folder] /\ FM.is_dir f = true /\
    split_on "_" (FM.name f) = a :: b :: rest /\
    decimal_int b = None /\
    dict_get (FM.files f) (a ++ "_" ++ b ++ "_components.json") <> None.
Proof.
  apply (collect_raises decimal_int [stray_folder] IntValueError).
  reflexivity.
Defined.

End ReportFacts.

(** ** The coach clips *)

Module ClipFacts.
Import VideoProcessor Py PyFacts VideoProcessorClips SegmenterFacts.

Section Splitter.
Context {M : Media}.

Lemma coach_filename_inj video_name a b :
  coach_filename video_name a = coach_filename video_name b -> a = b.
Proof.
  unfold coach_filename. intros H.
  apply append_inj_l, append_inj_l, append_inj_r in H.
  now apply py_str_inj.
Qed.

Lemma clip_step_raise video_path fps video_name xs e :
  fold_left (clip_step video_path fps video_name) xs (Raise e) = Raise e.
Proof. induction xs as [|x xs IH]; [reflexivity|exact IH]. Qed.

Lemma clip_step_ok video_path fps video_name acc i b :
  isOpened video_path = true -> fps <> 0 ->
  writable (coach_filename video_name i) = true ->
  clip_step video_path fps video_name (Ok acc) (i, b)
  = Ok (dict_set acc (coach_filename video_name i)
          (snd (clip_item fps video_name (i, b)))).
Proof.
  intros Ho Hf Hw. destruct b as [[s e] ty].
  apply andb_true_iff in Hw as [Hw He].
  unfold clip_step, py_truediv, _extract_coach_clip. cbn [bind].
  destruct (Z.eqb_spec fps 0); [contradiction|]. cbn [bind].
  now rewrite Ho, Hw, He.
Qed.

Lemma clip_step_fails video_path fps video_name acc i b :
  isOpened video_path = true -> fps <> 0 ->
  writable (coach_filename video_name i) = false ->
  clip_step video_path fps video_name (Ok acc) (i, b) = Raise ValueError.
Proof.
  intros Ho Hf Hw. destruct b as [[s e] ty].
  unfold clip_step, py_truediv, _extract_coach_clip. cbn [bind].
  destruct (Z.eqb_spec fps 0); [contradiction|]. cbn [bind].
  rewrite Ho. cbn [negb]. unfold writable in Hw.
  destruct (writer_isOpened _); cbn [negb bind]; [|reflexivity].
  cbn [andb] in Hw. now rewrite Hw.
Qed.

Lemma clip_item_key fps video_name x :
  fst (clip_item fps video_name x) = coach_filename video_name (fst x).
Proof. now destruct x as [i [[s e] ty]]. Qed.

Lemma clip_loop video_path fps video_name xs :
  isOpened video_path = true -> fps <> 0 ->
  forall acc,
  (forall x, In x xs -> writable (coach_filename video_name (fst x)) = true) ->
  List.NoDup (map fst xs) ->
  (forall x, In x xs -> ~ In (coach_filename video_name (fst x)) (keys acc)) ->
  fold_left (clip_step video_path fps video_name) xs (Ok acc)
  = Ok (acc ++ map (clip_item fps video_name) xs).
Proof.
  intros Ho Hf. induction xs as [|[i b] xs IH]; intros acc Hw Hnd Hfresh.
  - cbn. now rewrite app_nil_r.
  - cbn [fold_left]. rewrite clip_step_ok; [|assumption..|apply (Hw (i, b)); now left].
    rewrite dict_set_new by (apply (Hfresh (i, b)); now left).
    apply List.NoDup_cons_iff in Hnd as [Hi Hnd]. cbn [map fst] in Hi.
    rewrite IH; [| |assumption|].
    + rewrite <- app_assoc. cbn [app map]. do 3 f_equal.
      destruct (clip_item fps video_name (i, b)) as [k v] eqn:E.
      pose proof (clip_item_key fps video_name (i, b)) as Hk.
      rewrite E in Hk. cbn in Hk. now subst k.
    + intros x Hx. apply Hw. now right.
    + intros x Hx. unfold keys. rewrite map_app, in_app_iff. cbn [map fst].
      intros [Hin|[Heq|[]]].
      * apply (Hfresh x); [now right|exact Hin].
      * apply coach_filename_inj in Heq. apply Hi. rewrite Heq.
        now apply in_map.
Qed.

Lemma clip_loop_raises video_path fps video_name xs :
  isOpened video_path = true -> fps <> 0 ->
  forall acc e,
  fold_left (clip_step video_path fps video_name) xs (Ok acc) = Raise e ->
  e = ValueError /\
  exists x, In x xs /\ writable (coach_filename video_name (fst x)) = false.
Proof.
  intros Ho Hf. induction xs as [|[i b] xs IH]; intros acc e H;
    [discriminate|].
  cbn [fold_left] in H.
  destruct (writable (coach_filename video_name i)) eqn:Hw.
  - rewrite clip_step_ok in H by assumption.
    apply IH in H as (-> & x & Hx & Hx'). split; [reflexivity|].
    exists x. split; [now right|exact Hx'].
  - rewrite clip_step_fails, clip_step_raise in H by assumption.
    injection H as <-. split; [reflexivity|].
    exists (i, b). split; [now left|exact Hw].
Qed.

Lemma enumerate_indices {A} (start : Z) (l : list A) :
  map fst (py_enumerate start l)
  = map (fun k => start + Z.of_nat k) (seq 0 (length l)).
Proof.
  revert start. induction l as [|a l IH]; intros start; [reflexivity|].
  rewrite py_enumerate_cons. cbn [map fst length seq].
  rewrite Z.add_0_r, IH, <- seq_shift, map_map. f_equal.
  apply map_ext. intros k. lia.
Qed.

Lemma enumerate_nodup {A} (start : Z) (l : list A) :
  List.NoDup (map fst (py_enumerate start l)).
Proof.
  rewrite enumerate_indices.
  apply Finite.Injective_map_NoDup_in; [|apply seq_NoDup].
  intros a b _ _ H. lia.
Qed.

Lemma enumerate_index_range {A} (start : Z) (l : list A) x :
  In x (py_enumerate start l) ->
  start <= fst x < start + Z.of_nat (length l).
Proof.
  intros Hx. apply (in_map fst) in Hx. rewrite enumerate_indices in Hx.
  apply in_map_iff in Hx as (k & <- & Hk). apply in_seq in Hk. lia.
Qed.

(** X27: when the video opens, its rate is not zero and every clip can be
    written, [split_video_into_coaches] returns a dictionary with one item
    per coach, between 6 and 12 of them, in the order of the coaches. The
    keys are [name_1.mp4], [name_2.mp4] and so on, and no two are equal, so
    that no clip replaces another; the item of coach [k + 1] holds the path
    [temp_] followed by its key, the type engine for the first coach and
    wagon for the others, and the frames [k * (total // n)] to
    [min((k + 1) * (total // n), total)]. *)
Theorem coach_clips_items (video_path : string) :
  isOpened video_path = true ->
  CAP_PROP_FPS video_path <> 0 ->
  (forall i, 1 <= i <= 12 ->
     writable (coach_filename (stem video_path) i) = true) ->
  let fps := CAP_PROP_FPS video_path in
  let total := CAP_PROP_FRAME_COUNT video_path in
  let n := num_coaches_of (inject_Z total / inject_Z fps)%Q in
  exists coach_clips,
    split_video_into_coaches video_path = Ok coach_clips /\
    Z.of_nat (length coach_clips) = n /\ 6 <= n <= 12 /\
    List.NoDup (keys coach_clips) /\
    forall k : nat, Z.of_nat k < n ->
      exists info,
        coach_clips !! k
        = Some (coach_filename (stem video_path) (Z.of_nat k + 1), info) /\
        path info
        = ("temp_" ++ coach_filename (stem video_path) (Z.of_nat k + 1))%string
        /\
        type info = (if Z.of_nat k =? 0 then engine else wagon) /\
        info_start_frame info = Z.of_nat k * (total / n) /\
        info_end_frame info
        = Z.min ((Z.of_nat k + 1) * (total / n)) total.
Proof.
  intros Ho Hf Hw fps total n.
  pose proof (num_coaches_bounds (inject_Z total / inject_Z fps)%Q) as Hn.
  fold n in Hn.
  set (bs := map (segment total (total / n)) (py_range n)).
  assert (Hlen : Z.of_nat (length bs) = n).
  { unfold bs. rewrite length_map. apply length_py_range. lia. }
  exists (map (clip_item fps (stem video_path)) (py_enumerate 1 bs)).
  split; [|split; [|split; [exact Hn|split]]].
  - unfold split_video_into_coaches. rewrite Ho. cbn [negb].
    fold fps total. unfold py_truediv at 1.
    destruct (Z.eqb_spec fps 0) as [E|_]; [contradiction|]. cbn [bind].
    rewrite (boundaries_eq total fps Hf). cbn [bind]. fold n bs.
    rewrite (clip_loop video_path fps (stem video_path)); try assumption.
    + reflexivity.
    + intros x Hx. apply Hw. apply enumerate_index_range in Hx. lia.
    + apply enumerate_nodup.
    + intros x _ [].
  - now rewrite length_map, length_enumerate.
  - unfold keys. rewrite map_map.
    rewrite (map_ext _ (fun x => coach_filename (stem video_path) (fst x)))
      by (intros x; apply clip_item_key).
    rewrite <- (map_map fst (coach_filename (stem video_path))).
    apply Finite.Injective_map_NoDup_in; [|apply enumerate_nodup].
    intros a b _ _. apply coach_filename_inj.
  - intros k Hk.
    assert (Hb : bs !! k = Some (segment total (total / n) (Z.of_nat k))).
    { unfold bs. rewrite lookup_py_range.
      destruct (decide (k < Z.to_nat n)%nat); [reflexivity|lia]. }
    eexists. split.
    + unfold dict. rewrite lookup_map, lookup_enumerate, Hb. cbn.
      rewrite (Z.add_comm 1). reflexivity.
    + cbn. repeat split.
Qed.

(** X28: what [split_video_into_coaches] raises. It raises [ValueError] for
    a video that does not open, and [ZeroDivisionError] for one that opens
    with a rate of zero; for any other video it raises only [ValueError],
    and only when one of its clips cannot be written. *)
Theorem split_video_raises (video_path : string) :
  (isOpened video_path = false ->
   split_video_into_coaches video_path = Raise ValueError) /\
  (isOpened video_path = true -> CAP_PROP_FPS video_path = 0 ->
   split_video_into_coaches video_path = Raise ZeroDivisionError) /\
  (isOpened video_path = true -> CAP_PROP_FPS video_path <> 0 ->
   forall e, split_video_into_coaches video_path = Raise e ->
   e = ValueError /\
   exists i, 1 <= i <= 12 /\
             writable (coach_filename (stem video_path) i) = false).
Proof.
  unfold split_video_into_coaches. split; [|split].
  - now intros ->.
  - intros -> ->. reflexivity.
  - intros Ho Hf e H. rewrite Ho in H. cbn [negb] in H.
    unfold py_truediv at 1 in H.
    destruct (Z.eqb_spec (CAP_PROP_FPS video_path) 0) as [E|_];
      [contradiction|]. cbn [bind] in H.
    rewrite (boundaries_eq _ _ Hf) in H. cbn [bind] in H.
    apply clip_loop_raises in H as (-> & x & Hx & Hw); try assumption.
    split; [reflexivity|]. exists (fst x). split; [|exact Hw].
    apply enumerate_index_range in Hx. rewrite length_map in Hx.
    pose proof (num_coaches_bounds
                  (inject_Z (CAP_PROP_FRAME_COUNT video_path)
                   / inject_Z (CAP_PROP_FPS video_path))%Q) as Hn.
    rewrite length_py_range in Hx by lia. lia.
Qed.

End Splitter.

Lemma coach_clips_items_witness :
  exists coach_clips,
    split_video_into_coaches (M := one_video) "in/12309.mp4" = Ok coach_clips
    /\ Z.of_nat (length coach_clips) = 6 /\ 6 <= 6 <= 12 /\
    List.NoDup (keys coach_clips) /\
    forall k : nat, Z.of_nat k < 6 ->
      exists info,
        coach_clips !! k
        = Some (coach_filename "12309" (Z.of_nat k + 1), info) /\
        path info
        = ("temp_" ++ coach_filename "12309" (Z.of_nat k + 1))%string /\
        type info = (if Z.of_nat k =? 0 then engine else wagon) /\
        info_start_frame info = Z.of_nat k * 500 /\
        info_end_frame info = Z.min ((Z.of_nat k + 1) * 500) 3000.
Proof.
  apply (coach_clips_items (M := one_video) "in/12309.mp4").
  - reflexivity.
  - discriminate.
  - intros i _. reflexivity.
Defined.

Lemma split_video_raises_witness :
  split_video_into_coaches (M := third_clip_fails) "in/12309.mp4"
  = Raise ValueError /\
  exists i, 1 <= i <= 12 /\
            writable (M := third_clip_fails) (coach_filename "12309" i)
            = false.
Proof.
  split; [reflexivity|].
  destruct (split_video_raises (M := third_clip_fails) "in/12309.mp4")
    as (_ & _ & H).
  assert (Hf : CAP_PROP_FPS (Media := third_clip_fails) "in/12309.mp4" <> 0)
    by discriminate.
  exact (proj2 (H eq_refl Hf ValueError eq_refl)).
Defined.

End ClipFacts.
